(** * scikeras/_saving_utils.py: pickling support for Keras objects

    A shallow embedding of [src/scikeras/_saving_utils.py] and the properties
    of its pack/unpack protocol.

    - Python exceptions and mutable state are threaded by a small
      state-and-exception monad [M S A]: a raising computation still returns
      the state it reached.
    - [os.path] is the POSIX implementation (posixpath), on [string]; the
      properties about paths are those of the in-memory ([ram://]) branch.
    - [tf.io.gfile] is a store of files and directories; the directory walk
      reports file names either relative to the walk root or as entire paths
      (the [ram://] behaviour the source comments on).
    - [tarfile] archives are the ordered list of their (name, bytes) entries.
    - Keras collaborators (model save/load, the optimizer's own allocation
      routine and [set_weights], metric/loss (de)serialisation) are interfaces
      (type classes). *)

From stdpp Require Import gmap strings list fin_maps.
From Stdlib Require Import String Ascii.
From Stdlib.Strings Require Import Byte.

Local Open Scope string_scope.
Local Open Scope list_scope.
Local Open Scope stdpp_scope.

(** ** Exceptions and the state-and-exception monad *)

Inductive exn : Type :=
  | ValueError
  | TypeError
  | AttributeError
  | RecursionError
  | KeyError
  | NotFoundError            (* tf.errors.NotFoundError *)
  | FailedPreconditionError  (* tf.errors.FailedPreconditionError *)
  | OtherError (name : string).

Inductive result (A : Type) : Type :=
  | Ok (a : A)
  | Raise (e : exn).
Arguments Ok {A} a.
Arguments Raise {A} e.

Definition M (S A : Type) : Type := S -> result A * S.

Definition ret {S A} (a : A) : M S A := fun s => (Ok a, s).
Definition raise {S A} (e : exn) : M S A := fun s => (Raise e, s).
Definition bind {S A B} (m : M S A) (k : A -> M S B) : M S B :=
  fun s => match m s with
           | (Ok a, s') => k a s'
           | (Raise e, s') => (Raise e, s')
           end.
Definition lift_result {S A} (r : result A) : M S A := fun s => (r, s).

Notation "x <- c1 ;; c2" := (bind c1 (fun x => c2))
  (at level 100, c1 at next level, right associativity).
Notation "c1 ;; c2" := (bind c1 (fun _ => c2))
  (at level 100, right associativity).

(** [try: m except ValueError: pass] *)
Definition try_except_ValueError_pass {S} (m : M S unit) : M S unit :=
  fun s => match m s with
           | (Raise ValueError, s') => (Ok tt, s')
           | r => r
           end.

(** [try: m finally: fin]; an exception of [fin] replaces the outcome of [m]. *)
Definition try_finally {S A} (m : M S A) (fin : M S unit) : M S A :=
  fun s => let (r, s1) := m s in
           match fin s1 with
           | (Ok _, s2) => (r, s2)
           | (Raise e, s2) => (Raise e, s2)
           end.

(** [for x in xs: body x] *)
Fixpoint for_each {S A} (xs : list A) (body : A -> M S unit) : M S unit :=
  match xs with
  | [] => ret tt
  | x :: xs' => body x ;; for_each xs' body
  end.


(** ** Strings and [os.path] (posixpath) *)

(** [c == os.sep] *)
Definition is_sep (c : ascii) : bool := Ascii.eqb c "/".

(** ["/" in s] *)
Fixpoint has_sep (s : string) : bool :=
  match s with
  | "" => false
  | String c r => is_sep c || has_sep r
  end.

(** [s.startswith(p)] *)
Definition startswith (s p : string) : bool := String.prefix p s.

(** [s.endswith("/")] *)
Fixpoint endswith_sep (s : string) : bool :=
  match s with
  | "" => false
  | String c "" => is_sep c
  | String _ r => endswith_sep r
  end.

(** [s.split("/")] *)
Fixpoint str_split (s : string) : list string :=
  match s with
  | "" => [""]
  | String c r =>
      if is_sep c then "" :: str_split r
      else match str_split r with
           | h :: t => String c h :: t
           | [] => [String c ""]
           end
  end.

(** ["/".join(comps)] *)
Fixpoint sep_join (comps : list string) : string :=
  match comps with
  | [] => ""
  | [c] => c
  | c :: rest => c +:+ "/" +:+ sep_join rest
  end.

(** [os.path.join(a, b)] *)
Definition join (a b : string) : string :=
  if startswith b "/" then b
  else if String.eqb a "" || endswith_sep a then a +:+ b
  else a +:+ "/" +:+ b.

(** [os.path.join(a, *ps)] *)
Definition join_all (a : string) (ps : list string) : string := fold_left join ps a.

(** [p[:p.rfind("/") + 1]] *)
Fixpoint dir_head (p : string) : string :=
  match p with
  | "" => ""
  | String c r => if has_sep p then String c (dir_head r) else ""
  end.

(** [s.rstrip("/")] *)
Fixpoint rstrip_sep (s : string) : string :=
  match s with
  | "" => ""
  | String c r =>
      match rstrip_sep r with
      | "" => if is_sep c then "" else String c ""
      | r' => String c r'
      end
  end.

(** [s == "/" * len(s)] *)
Fixpoint all_sep (s : string) : bool :=
  match s with
  | "" => true
  | String c r => is_sep c && all_sep r
  end.

(** [os.path.dirname(p)] *)
Definition dirname (p : string) : string :=
  let head := dir_head p in
  if negb (String.eqb head "") && negb (all_sep head) then rstrip_sep head else head.

(** [os.path.isabs(p)] *)
Definition isabs (p : string) : bool := startswith p "/".

(** The [initial_slashes] of [os.path.normpath]: POSIX keeps two leading
    slashes and treats three or more as one. *)
Definition initial_slashes (path : string) : nat :=
  if startswith path "/" then
    if startswith path "//" && negb (startswith path "///") then 2 else 1
  else 0.

(** [not l] *)
Definition is_nil {A} (l : list A) : bool :=
  match l with [] => true | _ => false end.

(** One iteration of the component loop of [os.path.normpath]. *)
Definition norm_step (init : nat) (new_comps : list string) (comp : string) : list string :=
  if String.eqb comp "" || String.eqb comp "." then new_comps
  else if negb (String.eqb comp "..")
          || (Nat.eqb init 0 && is_nil new_comps)
          || (negb (is_nil new_comps) && String.eqb (List.last new_comps "") "..")
       then new_comps ++ [comp]
       else removelast new_comps.

(** The component loop of [os.path.normpath]. *)
Definition norm_comps (init : nat) (comps : list string) : list string :=
  fold_left (norm_step init) comps [].

(** ["/" * n] *)
Fixpoint slashes (n : nat) : string :=
  match n with
  | O => ""
  | S n' => String "/" (slashes n')
  end.

(** [os.path.normpath(path)] *)
Definition normpath (path : string) : string :=
  if String.eqb path "" then "."
  else
    let init := initial_slashes path in
    let p := slashes init +:+ sep_join (norm_comps init (str_split path)) in
    if String.eqb p "" then "." else p.

(** [os.path.abspath(path)], with [cwd] the value of [os.getcwd()]. *)
Definition abspath (cwd path : string) : string :=
  normpath (if isabs path then path else join cwd path).

(** The truth value of a string: it is not empty. *)
Definition nonempty (s : string) : bool := negb (String.eqb s "").

(** The components two paths share from the start; for two lists
    [os.path.commonprefix] returns exactly this. *)
Fixpoint commonprefix (l1 l2 : list string) : list string :=
  match l1, l2 with
  | x :: l1', y :: l2' => if String.eqb x y then x :: commonprefix l1' l2' else []
  | _, _ => []
  end.

(** [os.path.relpath(path, start)] *)
Definition relpath (cwd path start : string) : result string :=
  if String.eqb path "" then Raise ValueError
  else
    let start_list := List.filter nonempty (str_split (abspath cwd start)) in
    let path_list := List.filter nonempty (str_split (abspath cwd path)) in
    let i := List.length (commonprefix start_list path_list) in
    let rel_list := repeat ".." (List.length start_list - i) ++ drop i path_list in
    match rel_list with
    | [] => Ok "."
    | c :: rest => Ok (join_all c rest)
    end.

(** ** The storage medium: [tf.io.gfile]

    An entry of the store is a file with its bytes or a directory.  A path
    string names a location: the filesystem root ([scheme://host] for a URI
    such as [ram://<uuid>], ["/"] or [""] for a local path) and the non-empty
    components below it. *)

Inductive node : Type :=
  | File (data : list byte)
  | Directory.

Abbreviation location := (string * list string)%type.

Abbreviation filesystem := (gmap (string * list string) node).

(** [s[len(p):]] when [s.startswith(p)] *)
Fixpoint strip_prefix (p s : string) : option string :=
  match p, s with
  | "", _ => Some s
  | String a p', String b s' => if Ascii.eqb a b then strip_prefix p' s' else None
  | String _ _, "" => None
  end.

(** Splits [scheme://rest] at the first ["://"]. *)
Fixpoint split_scheme (s : string) : option (string * string) :=
  match strip_prefix "://" s with
  | Some rest => Some ("", rest)
  | None =>
      match s with
      | "" => None
      | String c r =>
          match split_scheme r with
          | Some (scheme, rest) => Some (String c scheme, rest)
          | None => None
          end
      end
  end.

(** The part of [s] before its first ["/"], and the rest from that ["/"] on. *)
Fixpoint span_sep (s : string) : string * string :=
  match s with
  | "" => ("", "")
  | String c r =>
      if is_sep c then ("", s)
      else let (h, t) := span_sep r in (String c h, t)
  end.

(** The non-empty components of a path. *)
Definition path_comps (path : string) : list string :=
  List.filter nonempty (str_split path).

Definition parse_path (path : string) : location :=
  match split_scheme path with
  | Some (scheme, rest) =>
      if has_sep scheme then ((if isabs path then "/" else ""), path_comps path)
      else let (host, p) := span_sep rest in
           (scheme +:+ "://" +:+ host, path_comps p)
  | None => ((if isabs path then "/" else ""), path_comps path)
  end.

(** The path string of a location. *)
Definition loc_path (l : location) : string :=
  match l.2 with
  | [] => l.1
  | comps => join l.1 (sep_join comps)
  end.

(** All prefixes of a list, shortest first. *)
Fixpoint inits {A} (l : list A) : list (list A) :=
  match l with
  | [] => [[]]
  | x :: l' => [] :: List.map (cons x) (inits l')
  end.

(** [tf.io.gfile.exists(path)] *)
Definition gfile_exists (path : string) : M filesystem bool :=
  fun fs => (Ok (bool_decide (is_Some (fs !! parse_path path))), fs).

(** [tf.io.gfile.remove(path)]: deletes the one entry at [path]; it is not
    recursive ([tf.io.gfile.rmtree] is). *)
Definition gfile_remove (path : string) : M filesystem unit :=
  fun fs => match fs !! parse_path path with
            | Some _ => (Ok tt, delete (parse_path path) fs)
            | None => (Raise NotFoundError, fs)
            end.

(** Creating one directory entry; a file in its place is an error, an
    existing directory is not. *)
Definition mkdir (l : location) : M filesystem unit :=
  fun fs => match fs !! l with
            | Some (File _) => (Raise FailedPreconditionError, fs)
            | _ => (Ok tt, <[l := Directory]> fs)
            end.

(** [tf.io.gfile.makedirs(path)]: the directory and all its parents. *)
Definition gfile_makedirs (path : string) : M filesystem unit :=
  let l := parse_path path in
  for_each (inits l.2) (fun comps => mkdir (l.1, comps)).

(** [with tf.io.gfile.GFile(path, "wb") as f: f.write(data)] *)
Definition gfile_write (path : string) (data : list byte) : M filesystem unit :=
  fun fs => match fs !! parse_path path with
            | Some Directory => (Raise FailedPreconditionError, fs)
            | _ => (Ok tt, <[parse_path path := File data]> fs)
            end.

(** [tf.io.gfile.GFile(path, "rb").read()] *)
Definition gfile_read (path : string) : M filesystem (list byte) :=
  fun fs => match fs !! parse_path path with
            | Some (File data) => (Ok data, fs)
            | _ => (Raise NotFoundError, fs)
            end.


(** [l] is [top] or lies below it. *)
Definition under (top l : location) : Prop := l.1 = top.1 ∧ top.2 `prefix_of` l.2.

(** Recursive removal, as [tempfile.TemporaryDirectory] does on exit: the
    entry and everything below it; a missing directory is not an error. *)
Definition rmtree (path : string) : M filesystem unit :=
  fun fs => (Ok tt, filter (fun kv => ¬ under (parse_path path) kv.1) fs).

(** The name of [l] inside directory [dir], when [l] is an entry of [dir]. *)
Definition child_of (dir l : location) : option string :=
  match last l.2 with
  | Some n => if bool_decide (l = (dir.1, dir.2 ++ [n])) then Some n else None
  | None => None
  end.

(** [tf.io.gfile.isdir] on an entry. *)
Definition is_directory (n : node) : bool :=
  match n with Directory => true | File _ => false end.

(** The directories a walk from [top] visits: [top], then every directory
    below it. *)
Definition walk_dirs (top : location) (entries : list (location * node)) : list location :=
  top :: omap (fun kv : location * node =>
                 if is_directory kv.2 && bool_decide (under top kv.1 ∧ kv.1 ≠ top)
                 then Some kv.1 else None) entries.

(** The names [tf.io.gfile.walk] reports for the entries of [dir] of one kind
    ([want_dir]): relative to [dir], or the entire path when [full]. *)
Definition walk_names (full want_dir : bool) (dir : location)
    (entries : list (location * node)) : list string :=
  omap (fun kv : location * node =>
          if Bool.eqb (is_directory kv.2) want_dir then
            match child_of dir kv.1 with
            | Some n => Some (if full then loc_path kv.1 else n)
            | None => None
            end
          else None) entries.

(** [tf.io.gfile.walk(top)], as the list of the [(root, dirs, files)] it
    yields: one triple for [top] and for each directory below it; nothing when
    [top] is not a directory.  The loops of this module only remove files the
    walk has already reported, so the listing taken when the loop starts is
    what the generator yields. *)
Definition gfile_walk (full : bool) (top : string)
    : M filesystem (list (string * list string * list string)) :=
  fun fs =>
    match fs !! parse_path top with
    | Some Directory =>
        let entries := map_to_list fs in
        (Ok ((fun d => (loc_path d,
                        walk_names full true d entries,
                        walk_names full false d entries))
               <$> walk_dirs (parse_path top) entries), fs)
    | _ => (Ok [], fs)
    end.

(** ** [tarfile]: an archive is the ordered list of its entries *)

Definition tar_archive : Type := list (string * list byte).


(** [archive.getnames()] *)
Definition getnames (archive : tar_archive) : list string := archive.*1.

(** [archive.getmember(name)]: the last entry of that name. *)
Fixpoint getmember (archive : tar_archive) (name : string) : option (list byte) :=
  match archive with
  | [] => None
  | (n, d) :: rest =>
      match getmember rest name with
      | Some d' => Some d'
      | None => if String.eqb n name then Some d else None
      end
  end.

(** [archive.extractfile(name).read()] *)
Definition extractfile (archive : tar_archive) (name : string) : result (list byte) :=
  match getmember archive name with
  | Some d => Ok d
  | None => Raise KeyError
  end.

(** ** The platform *)

Class Platform : Type := {
  os_name : string;              (* os.name *)
  getcwd : string;               (* os.getcwd() *)
  walk_reports_full_paths : bool (* tf.io.gfile.walk returns entire paths *)
}.

(** [with tempfile.TemporaryDirectory() as dirname: body dirname], where
    [name] is the directory the operating system creates. *)
Definition TemporaryDirectory {A} (name : string) (body : string -> M filesystem A)
    : M filesystem A :=
  gfile_makedirs name ;;
  try_finally (body name) (rmtree name).

(** ** [_get_temp_folder] (lines 19-34)

    [fresh] is the value drawn by [uuid4()] (or, on Windows, the name of the
    temporary directory); the body of the [with] statement is [body]. *)
Definition _get_temp_folder {PF : Platform} {A} (fresh : string)
    (body : string -> M filesystem A) : M filesystem A :=
  if String.eqb os_name "nt" then
    TemporaryDirectory fresh body
  else
    let dir := "ram://" +:+ fresh in
    try_finally (body dir)
      (e <- gfile_exists dir ;;
       if e : bool then gfile_remove dir else ret tt).

(** ** Keras optimizers and the deferred-slot restoration hook *)

Record ndarray : Type := { shape : list nat; values : list Z }.

(** The routines an optimizer's [_create_all_weights] attribute can hold: the
    method of the optimizer's class, or [_temp_create_all_weights] bound to the
    optimizer by [MethodType]. *)
Inductive method : Type :=
  | ClassCreateAllWeights
  | TempCreateAllWeights.

(** An optimizer object: the attributes this module sets on the instance
    ([None] when the instance has no such attribute) and the optimizer's own
    weights (iteration counter and slot variables).  The value of
    [_restored_weights] is itself a weight list or Python's [None]. *)
Record Optimizer : Type := {
  _restored_weights : option (option (list ndarray));
  _create_all_weights_orig : option method;
  _create_all_weights : option method;
  opt_weights : list ndarray
}.

(** The optimizer's own routines, as Keras provides them: the class's
    [_create_all_weights(var_list)] and [set_weights(weights)], acting on the
    optimizer's weights. *)
Class OptimizerAPI : Type := {
  create_all_weights_impl : list ndarray -> M (list ndarray) unit;
  set_weights_impl : option (list ndarray) -> M (list ndarray) unit
}.

Definition on_weights {A} (m : M (list ndarray) A) : M Optimizer A :=
  fun o => let (r, w) := m (opt_weights o) in
           (r, {| _restored_weights := _restored_weights o;
                  _create_all_weights_orig := _create_all_weights_orig o;
                  _create_all_weights := _create_all_weights o;
                  opt_weights := w |}).

(** [optimizer.get_weights()] *)
Definition get_weights (o : Optimizer) : list ndarray := opt_weights o.

(** [self._create_all_weights]: the instance attribute, else the class's method. *)
Definition lookup_create_all_weights (o : Optimizer) : method :=
  match _create_all_weights o with
  | Some m => m
  | None => ClassCreateAllWeights
  end.

(** [self._create_all_weights_orig] *)
Definition getattr_create_all_weights_orig : M Optimizer method :=
  fun o => match _create_all_weights_orig o with
           | Some m => (Ok m, o)
           | None => (Raise AttributeError, o)
           end.

(** [self._restored_weights] *)
Definition getattr_restored_weights : M Optimizer (option (list ndarray)) :=
  fun o => match _restored_weights o with
           | Some w => (Ok w, o)
           | None => (Raise AttributeError, o)
           end.

(** [delattr(self, "_restored_weights")] *)
Definition delattr_restored_weights : M Optimizer unit :=
  fun o => match _restored_weights o with
           | Some _ => (Ok tt, {| _restored_weights := None;
                                  _create_all_weights_orig := _create_all_weights_orig o;
                                  _create_all_weights := _create_all_weights o;
                                  opt_weights := opt_weights o |})
           | None => (Raise AttributeError, o)
           end.

(** [self._create_all_weights = m] *)
Definition setattr_create_all_weights (m : method) : M Optimizer unit :=
  fun o => (Ok tt, {| _restored_weights := _restored_weights o;
                      _create_all_weights_orig := _create_all_weights_orig o;
                      _create_all_weights := Some m;
                      opt_weights := opt_weights o |}).

(** [_temp_create_all_weights] (lines 37-52).  [depth] is the number of
    Python frames left before the interpreter raises [RecursionError]: the
    saved routine may be the wrapper itself. *)
Fixpoint _temp_create_all_weights `{OptimizerAPI} (depth : nat)
    (var_list : list ndarray) : M Optimizer unit :=
  match depth with
  | O => raise RecursionError
  | S depth' =>
      orig <- getattr_create_all_weights_orig ;;
      match orig with
      | ClassCreateAllWeights => on_weights (create_all_weights_impl var_list)
      | TempCreateAllWeights => _temp_create_all_weights depth' var_list
      end ;;
      try_except_ValueError_pass
        (w <- getattr_restored_weights ;; on_weights (set_weights_impl w)) ;;
      delattr_restored_weights ;;
      orig' <- getattr_create_all_weights_orig ;;
      setattr_create_all_weights orig'
  end.

(** [optimizer._create_all_weights(var_list)]: the call an optimizer makes on
    its first allocation-triggering operation. *)
Definition call_create_all_weights `{OptimizerAPI} (depth : nat)
    (var_list : list ndarray) : M Optimizer unit :=
  match depth with
  | O => raise RecursionError
  | S depth' =>
      fun o => match lookup_create_all_weights o with
               | ClassCreateAllWeights => on_weights (create_all_weights_impl var_list) o
               | TempCreateAllWeights => _temp_create_all_weights depth' var_list o
               end
  end.

(** [_restore_optimizer_weights] (lines 55-62) *)
Definition _restore_optimizer_weights (optimizer : Optimizer)
    (weights : option (list ndarray)) : Optimizer :=
  {| _restored_weights := Some weights;
     _create_all_weights_orig := Some (lookup_create_all_weights optimizer);
     _create_all_weights := Some TempCreateAllWeights;
     opt_weights := opt_weights optimizer |}.

(** The hook is attached: the instance's allocation routine is the wrapper. *)
Definition hook_attached (o : Optimizer) : bool :=
  match _create_all_weights o with
  | Some TempCreateAllWeights => true
  | _ => false
  end.

(** [set_weights] as Keras implements it: a [ValueError] when the number of
    arrays or any shape differs from the optimizer's current weights, with
    nothing assigned; [len(None)] is a [TypeError]. *)
Definition shapes_match (ws current : list ndarray) : bool :=
  bool_decide (shape <$> ws = shape <$> current).

Definition keras_set_weights (weights : option (list ndarray)) : M (list ndarray) unit :=
  match weights with
  | None => raise TypeError
  | Some ws => fun current =>
      if shapes_match ws current then (Ok tt, ws) else (Raise ValueError, current)
  end.

(** ** Keras models *)

Record Model (Core : Type) : Type := {
  model_core : Core;                (* architecture and layer weights *)
  optimizer : option Optimizer      (* model.optimizer *)
}.
Arguments model_core {Core} _.
Arguments optimizer {Core} _.

(** [model.save(path)] and [keras.models.load_model(path)]. *)
Class KerasModelAPI (Core : Type) : Type := {
  model_save : Model Core -> string -> M filesystem unit;
  load_model : string -> M filesystem (Model Core)
}.

Section ModelPacking.
Context {PF : Platform} {Core : Type} {API : KerasModelAPI Core}.

(** Lines 70-76 of [unpack_keras_model]: the archive is written below
    [temp_dir]. *)
Definition unpack_extract (temp_dir : string) (archive : tar_archive)
    : M filesystem unit :=
  for_each (getnames archive) (fun fname =>
    let dest := join temp_dir fname in
    gfile_makedirs (dirname dest) ;;
    data <- lift_result (extractfile archive fname) ;;
    gfile_write dest data).

(** Lines 78-86 of [unpack_keras_model]: every file the walk reports is
    removed.  [cleanup_files] is the pair of loops over what the walk
    yielded. *)
Definition cleanup_files (groups : list (string * list string * list string))
    : M filesystem unit :=
  for_each groups (fun '(root, _, filenames) =>
    for_each filenames (fun filename =>
      let dest := if startswith filename "ram://" then filename
                  else join root filename in
      gfile_remove dest)).

Definition unpack_cleanup (temp_dir : string) : M filesystem unit :=
  groups <- gfile_walk walk_reports_full_paths temp_dir ;;
  cleanup_files groups.

(** Lines 87-88 of [unpack_keras_model]. *)
Definition attach_hook (model : Model Core)
    (optimizer_weights : option (list ndarray)) : Model Core :=
  match optimizer model with
  | Some o =>
      {| model_core := model_core model;
         optimizer := Some (_restore_optimizer_weights o optimizer_weights) |}
  | None => model
  end.

(** [unpack_keras_model] (lines 65-89) *)
Definition unpack_keras_model (fresh : string) (packed_keras_model : tar_archive)
    (optimizer_weights : option (list ndarray)) : M filesystem (Model Core) :=
  _get_temp_folder fresh (fun temp_dir =>
    unpack_extract temp_dir packed_keras_model ;;
    model <- load_model temp_dir ;;
    unpack_cleanup temp_dir ;;
    ret (attach_hook model optimizer_weights)).




End ModelPacking.

(** ** Optimizers, metrics and losses: configuration (de)serialisation *)

(** [keras.<kind>.serialize] / [keras.<kind>.deserialize] and the object's
    [get_config()] for one kind of Keras object. *)
Class KerasSerializable (T : Type) : Type := {
  serialized_config : Type;
  config : Type;
  get_config : T -> config;
  keras_serialize : T -> serialized_config;
  keras_deserialize : serialized_config -> result T
}.

(** A one-element Python tuple [(x,)]. *)
Record tuple1 (A : Type) : Type := Tuple1 { item0 : A }.
Arguments Tuple1 {A} _.
Arguments item0 {A} _.

(** Calling [f] with the items of a one-element and of a two-element
    argument tuple (Python's star-argument call). *)
Definition apply1 {A B} (f : A -> B) (args : tuple1 A) : B := f (item0 args).
Definition apply2 {A B C} (f : A -> B -> C) (args : A * B) : C := f args.1 args.2.

Section ConfigPacking.
Context {Metric Loss : Type}.
Context `{SO : KerasSerializable Optimizer} `{SM : KerasSerializable Metric}
        `{SL : KerasSerializable Loss}.

(** [unpack_keras_optimizer] (lines 127-133) *)
Definition unpack_keras_optimizer (opt_serialized : @serialized_config _ SO)
    (weights : option (list ndarray)) : result Optimizer :=
  match keras_deserialize opt_serialized with
  | Ok optimizer => Ok (_restore_optimizer_weights optimizer weights)
  | Raise e => Raise e
  end.

(** [pack_keras_optimizer] (lines 136-147) *)
Definition pack_keras_optimizer (optimizer : Optimizer) :=
  let opt_serialized := keras_serialize optimizer in
  let weights := get_weights optimizer in
  (unpack_keras_optimizer, (opt_serialized, Some weights)).

(** [unpack_keras_metric] (lines 150-153) *)
Definition unpack_keras_metric (metric_serialized : @serialized_config _ SM)
    : result Metric :=
  keras_deserialize metric_serialized.

(** [pack_keras_metric] (lines 156-161) *)
Definition pack_keras_metric (metric : Metric) :=
  let metric_serialized := keras_serialize metric in
  (unpack_keras_metric, Tuple1 metric_serialized).

(** [unpack_keras_loss] (lines 164-167) *)
Definition unpack_keras_loss (loss_serialized : @serialized_config _ SL)
    : result Loss :=
  keras_deserialize loss_serialized.

(** [pack_keras_loss] (lines 170-173) *)
Definition pack_keras_loss (loss : Loss) :=
  let loss_serialized := keras_serialize loss in
  (unpack_keras_loss, Tuple1 loss_serialized).

End ConfigPacking.

(** ** Collaborator contracts and reference instances *)

(** A file or directory name: not empty, no separator, not ["."] or [".."]. *)
Definition valid_name (n : string) : bool :=
  nonempty n && negb (has_sep n) && negb (String.eqb n ".") && negb (String.eqb n "..").

(** A directory tree of files, as the list of its files (components below
    the root, and bytes): every path is a non-empty list of names, no path
    occurs twice, and no file lies below another file. *)
Definition valid_tree (files : list (list string * list byte)) : bool :=
  forallb (fun f : list string * list byte =>
             negb (is_nil f.1) && forallb valid_name f.1) files
  && bool_decide (NoDup files.*1)
  && forallb (fun f : list string * list byte =>
                forallb (fun g : list string * list byte =>
                           bool_decide (f.1 `prefix_of` g.1 → f.1 = g.1)) files) files.

(** Writing a directory tree of files below [dir] with the primitives of the
    storage medium: what saving a model into [dir] comes to. *)
Definition write_tree (dir : string) (files : list (list string * list byte))
    : M filesystem unit :=
  gfile_makedirs dir ;;
  for_each files (fun '(comps, data) =>
    let dest := join dir (sep_join comps) in
    gfile_makedirs (dirname dest) ;;
    gfile_write dest data).


(** Nothing is stored at or below the staging root [ram://u]. *)
Definition fresh_root (u : string) (fs : filesystem) : Prop :=
  ∀ comps, fs !! ("ram://" +:+ u, comps) = None.


(** The contract of [serialize] / [deserialize]: deserialising a serialised
    object gives an object of the same configuration. *)
Class KerasSerializableLaws (T : Type) {KS : KerasSerializable T} : Prop := {
  deserialize_serialize : ∀ x : T,
    ∃ y, keras_deserialize (keras_serialize x) = Ok y ∧ get_config y = get_config x
}.

(** An optimizer with one slot per variable: allocation creates the iteration
    counter and a zero slot of each variable's shape, once. *)
Definition zeros_like (v : ndarray) : ndarray :=
  {| shape := shape v; values := (fun _ => 0%Z) <$> values v |}.

Definition momentum_create_all_weights (var_list : list ndarray) : M (list ndarray) unit :=
  fun current =>
    (Ok tt, if is_nil current
            then {| shape := []; values := [0%Z] |} :: (zeros_like <$> var_list)
            else current).

Definition momentum_api : OptimizerAPI :=
  {| create_all_weights_impl := momentum_create_all_weights;
     set_weights_impl := keras_set_weights |}.

(** An optimizer whose allocation fails. *)
Definition failing_alloc_api : OptimizerAPI :=
  {| create_all_weights_impl := fun _ => raise (OtherError "ResourceExhaustedError");
     set_weights_impl := keras_set_weights |}.

(** Keras's [set_weights] with any allocation routine. *)
Definition keras_optimizer_api (alloc : list ndarray -> M (list ndarray) unit)
    : OptimizerAPI :=
  {| create_all_weights_impl := alloc; set_weights_impl := keras_set_weights |}.

(** A freshly constructed optimizer. *)
Definition new_optimizer : Optimizer :=
  {| _restored_weights := None;
     _create_all_weights_orig := None;
     _create_all_weights := None;
     opt_weights := [] |}.

(** A model format of two files: [saved_model.pb] holds one byte telling
    whether the model was compiled with an optimizer, and
    [variables/variables.data] holds the core's bytes. *)
Definition blob_files (m : Model (list byte)) : list (list string * list byte) :=
  [ (["saved_model.pb"], [match optimizer m with Some _ => x01 | None => x00 end]);
    (["variables"; "variables.data"], model_core m) ].

Definition blob_decode (pb data : list byte) : result (Model (list byte)) :=
  match pb with
  | [x00] => Ok {| model_core := data; optimizer := None |}
  | [x01] => Ok {| model_core := data; optimizer := Some new_optimizer |}
  | _ => Raise (OtherError "OSError")
  end.

Definition blob_api : KerasModelAPI (list byte) :=
  {| model_save := fun m dir => write_tree dir (blob_files m);
     load_model := fun dir =>
       pb <- gfile_read (join dir "saved_model.pb") ;;
       data <- gfile_read (join (join dir "variables") "variables.data") ;;
       lift_result (blob_decode pb data) |}.

Definition posix : Platform :=
  {| os_name := "posix"; getcwd := "/home/user"; walk_reports_full_paths := false |}.


(** A metric with a name and a threshold; its serialised form is the pair. *)
Record toy_metric : Type := { metric_name : string; metric_threshold : Z }.

Definition toy_metric_serializable : KerasSerializable toy_metric :=
  {| serialized_config := string * Z;
     config := string * Z;
     get_config := fun m => (metric_name m, metric_threshold m);
     keras_serialize := fun m => (metric_name m, metric_threshold m);
     keras_deserialize := fun c =>
       Ok {| metric_name := c.1; metric_threshold := c.2 |} |}.

(** A loss with a name and a reduction mode. *)
Record toy_loss : Type := { loss_name : string; loss_reduction : string }.

Definition toy_loss_serializable : KerasSerializable toy_loss :=
  {| serialized_config := list (string * string);
     config := string * string;
     get_config := fun l => (loss_name l, loss_reduction l);
     keras_serialize := fun l => [("name", loss_name l); ("reduction", loss_reduction l)];
     keras_deserialize := fun c =>
       match c with
       | [(k1, n); (k2, r)] =>
           if String.eqb k1 "name" && String.eqb k2 "reduction"
           then Ok {| loss_name := n; loss_reduction := r |}
           else Raise ValueError
       | _ => Raise ValueError
       end |}.

(** A variable of shape [2; 3] and the weights of an optimizer trained on it. *)
Definition kernel : ndarray := {| shape := [2; 3]; values := [1; 2; 3; 4; 5; 6]%Z |}.

Definition trained_weights : list ndarray :=
  [ {| shape := []; values := [41%Z] |};
    {| shape := [2; 3]; values := [9; 8; 7; 6; 5; 4]%Z |} ].

(** A saved model with a nested directory. *)
Definition saved_model_tree : list (list string * list byte) :=
  [ (["saved_model.pb"], [x08; x01; x12]);
    (["variables"; "variables.index"], [x0a; x0b]);
    (["variables"; "variables.data-00000-of-00001"], []) ].



(** The archive of [trained_model], and an archive whose [saved_model.pb]
    the loader rejects. *)
Definition trained_archive : tar_archive :=
  [ ("saved_model.pb", [x01]); ("variables/variables.data", [x08; x01; x12]) ].

Definition corrupt_archive : tar_archive :=
  [ ("saved_model.pb", [x2a]); ("variables/variables.data", [x08; x01; x12]) ].



(** An optimizer trained on [kernel]. *)
Definition trained_optimizer : Optimizer :=
  {| _restored_weights := None;
     _create_all_weights_orig := None;
     _create_all_weights := None;
     opt_weights := trained_weights |}.

(** Optimizers of one class without hyperparameters: the serialised form is
    the class name, and deserialising builds a new optimizer. *)
Definition sgd_serializable : KerasSerializable Optimizer :=
  {| serialized_config := string;
     config := string;
     get_config := fun _ => "SGD";
     keras_serialize := fun _ => "SGD";
     keras_deserialize := fun c =>
       if String.eqb c "SGD" then Ok new_optimizer else Raise ValueError |}.

(** The tree of an archive whose [saved_model.pb] the loader rejects. *)
Definition corrupt_tree : list (list string * list byte) :=
  [ (["saved_model.pb"], [x2a]); (["variables"; "variables.data"], [x08; x01; x12]) ].


(** The hook is attached to the model's optimizer. *)
Definition model_hook_attached {Core} (m : Model Core) : bool :=
  match optimizer m with
  | Some o => hook_attached o
  | None => false
  end.

(** The directory [_get_temp_folder] yields. *)
Definition staging_root {PF : Platform} (fresh : string) : string :=
  if String.eqb os_name "nt" then fresh else "ram://" +:+ fresh.

(** The same walk output with every name in its entire form: the join of the
    walk root and the name. *)
Definition full_names (g : string * list string * list string)
    : string * list string * list string :=
  (g.1.1, join g.1.1 <$> g.1.2, join g.1.1 <$> g.2).

(** ** Vocabulary of the properties *)

(** The optimizer [o] with the hook attached for the pending weights [w],
    its own weights being [ws]. *)
Definition hooked (o : Optimizer) (w : option (list ndarray)) (ws : list ndarray)
    : Optimizer :=
  {| _restored_weights := Some w;
     _create_all_weights_orig := Some (lookup_create_all_weights o);
     _create_all_weights := Some TempCreateAllWeights;
     opt_weights := ws |}.

(** The optimizer once the hook has run to its end, with weights [ws]. *)
Definition unhooked (ws : list ndarray) : Optimizer :=
  {| _restored_weights := None;
     _create_all_weights_orig := Some ClassCreateAllWeights;
     _create_all_weights := Some ClassCreateAllWeights;
     opt_weights := ws |}.

(** [valid_name] as a proposition. *)
Definition name_ok (n : string) : Prop := valid_name n = true.

(** A path that [os.path.join] extends with a separator: not empty and not
    ending in one. *)
Definition clean (a : string) : Prop := a ≠ "" ∧ endswith_sep a = false.

(** A component [os.path.normpath] keeps. *)
Definition comp_ok (c : string) : Prop := nonempty c = true ∧ has_sep c = false.

(** The path of a file below a root: at least one name. *)
Definition path_ok (cs : list string) : Prop := cs ≠ [] ∧ Forall name_ok cs.

(** [valid_tree] as a proposition. *)
Definition tree_ok (files : list (list string * list byte)) : Prop :=
  Forall (fun f : list string * list byte => path_ok f.1) files
  ∧ NoDup files.*1
  ∧ ∀ f g, f ∈ files → g ∈ files → f.1 `prefix_of` g.1 → f.1 = g.1.

(** [p] is a directory of the tree: a proper prefix of a file's path. *)
Definition is_dir_of (files : list (list string * list byte)) (p : list string) : Prop :=
  ∃ f, f ∈ files ∧ p `prefix_of` f.1 ∧ p ≠ f.1.

(** The store [fs] holds the tree [files] below the staging root [ram://u]:
    every other root is as in [fs0], the files below the root are those of
    the tree, and the directories are those of the tree (and the root itself
    when [base]). *)
Record staged (u : string) (base : bool) (files : list (list string * list byte))
    (fs0 fs : filesystem) : Prop := {
  staged_frame : ∀ r cs, r ≠ "ram://" +:+ u → fs !! (r, cs) = fs0 !! (r, cs);
  staged_files : ∀ cs d,
    fs !! ("ram://" +:+ u, cs) = Some (File d) ↔ (cs, d) ∈ files;
  staged_dirs : ∀ cs,
    fs !! ("ram://" +:+ u, cs) = Some Directory
    ↔ is_dir_of files cs ∨ (base = true ∧ cs = [])
}.

(** The archive of a tree: one entry per file, named by the file's
    components joined by the separator. *)
Definition tar_of (files : list (list string * list byte)) : tar_archive :=
  (fun f : list string * list byte => (sep_join f.1, f.2)) <$> files.







(** * Properties *)

(** ** The path functions on Python's documented examples *)

Example join_absolute_second : join "/usr" "/lib" = "/lib".
Proof. reflexivity. Qed.

Example join_adds_separator : join "ram://3f2b" "saved_model.pb" = "ram://3f2b/saved_model.pb".
Proof. reflexivity. Qed.

Example join_after_separator : join "/usr/" "lib" = "/usr/lib".
Proof. reflexivity. Qed.

Example dirname_file : dirname "ram://3f2b/variables/variables.index" = "ram://3f2b/variables".
Proof. reflexivity. Qed.

Example dirname_root : dirname "/" = "/".
Proof. reflexivity. Qed.

Example dirname_no_separator : dirname "saved_model.pb" = "".
Proof. reflexivity. Qed.

Example normpath_collapses : normpath "A//B/./C/../D" = "A/B/D".
Proof. reflexivity. Qed.

Example normpath_two_slashes : normpath "//usr/../lib/" = "//lib".
Proof. reflexivity. Qed.

Example relpath_below : relpath "/home/user" "/usr/lib/python" "/usr" = Ok "lib/python".
Proof. reflexivity. Qed.

Example relpath_above : relpath "/home/user" "/usr" "/usr/lib/python" = Ok "../..".
Proof. reflexivity. Qed.

Example relpath_same : relpath "/home/user" "/usr" "/usr" = Ok ".".
Proof. reflexivity. Qed.

Example relpath_ram :
  relpath "/home/user" "ram://3f2b/variables/variables.index" "ram://3f2b"
  = Ok "variables/variables.index".
Proof. reflexivity. Qed.

Example parse_path_ram_file :
  parse_path "ram://3f2b/variables/variables.index"
  = ("ram://3f2b", ["variables"; "variables.index"]).
Proof. reflexivity. Qed.

Example walk_relative_names :
  (gfile_walk false "ram://3f2b" (write_tree "ram://3f2b" saved_model_tree ∅).2).1
  = Ok [ ("ram://3f2b", ["variables"], ["saved_model.pb"]);
         ("ram://3f2b/variables", [],
          ["variables.index"; "variables.data-00000-of-00001"]) ].
Proof. vm_compute. reflexivity. Qed.

Example walk_entire_paths :
  (gfile_walk true "ram://3f2b" (write_tree "ram://3f2b" saved_model_tree ∅).2).1
  = Ok [ ("ram://3f2b", ["ram://3f2b/variables"], ["ram://3f2b/saved_model.pb"]);
         ("ram://3f2b/variables", [],
          ["ram://3f2b/variables/variables.index";
           "ram://3f2b/variables/variables.data-00000-of-00001"]) ].
Proof. vm_compute. reflexivity. Qed.

(** ** The restoration hook *)

Section Hook.
Context `{OptimizerAPI}.

Lemma restore_is_hooked o w :
  _restore_optimizer_weights o w = hooked o w (opt_weights o).
Proof. reflexivity. Qed.

(** The first allocation-triggering call on a hooked optimizer, step by step:
    the class's routine runs, then [set_weights] on the pending weights. *)
Lemma hook_call_alloc_raises o w depth var_list e ws1 :
  lookup_create_all_weights o = ClassCreateAllWeights →
  create_all_weights_impl var_list (opt_weights o) = (Raise e, ws1) →
  call_create_all_weights (S (S depth)) var_list (_restore_optimizer_weights o w)
  = (Raise e, hooked o w ws1).
Proof.
  intros Hcls Halloc.
  unfold call_create_all_weights, _restore_optimizer_weights. simpl.
  unfold bind, getattr_create_all_weights_orig. simpl. rewrite Hcls.
  unfold on_weights. simpl. rewrite Halloc. unfold hooked. simpl.
  by rewrite Hcls.
Qed.

Lemma hook_call_set_weights o w depth var_list ws1 r ws2 :
  lookup_create_all_weights o = ClassCreateAllWeights →
  create_all_weights_impl var_list (opt_weights o) = (Ok tt, ws1) →
  set_weights_impl w ws1 = (r, ws2) →
  call_create_all_weights (S (S depth)) var_list (_restore_optimizer_weights o w)
  = match r with
    | Ok _ | Raise ValueError => (Ok tt, unhooked ws2)
    | Raise e => (Raise e, hooked o w ws2)
    end.
Proof.
  intros Hcls Halloc Hset.
  unfold call_create_all_weights, _restore_optimizer_weights. simpl.
  unfold bind, getattr_create_all_weights_orig. simpl. rewrite Hcls.
  unfold on_weights at 1. simpl. rewrite Halloc.
  unfold try_except_ValueError_pass, bind, getattr_restored_weights, on_weights.
  simpl. rewrite Hset. unfold hooked, unhooked. rewrite Hcls.
  destruct r as [[]|e]; [reflexivity|]. by destruct e.
Qed.

(** C2 (as amended): once the class's allocation has returned and
    [set_weights] has either succeeded or raised [ValueError], the first
    allocation-triggering call on a hooked optimizer returns; afterwards
    [_restored_weights] is gone and [_create_all_weights] is the class's
    routine again, so a further call runs the class's routine only; the
    attribute [_create_all_weights_orig] is still on the optimizer. *)
Theorem C2_hook_fires_once o w depth var_list ws1 r ws2 :
  lookup_create_all_weights o = ClassCreateAllWeights →
  create_all_weights_impl var_list (opt_weights o) = (Ok tt, ws1) →
  set_weights_impl w ws1 = (r, ws2) →
  r = Ok tt ∨ r = Raise ValueError →
  ∃ o', call_create_all_weights (S (S depth)) var_list (_restore_optimizer_weights o w)
        = (Ok tt, o')
    ∧ _restored_weights o' = None
    ∧ lookup_create_all_weights o' = ClassCreateAllWeights
    ∧ hook_attached o' = false
    ∧ opt_weights o' = ws2
    ∧ _create_all_weights_orig o' = Some ClassCreateAllWeights
    ∧ ∀ d vl, call_create_all_weights (S d) vl o'
              = on_weights (create_all_weights_impl vl) o'.
Proof.
  intros Hcls Halloc Hset Hr. exists (unhooked ws2).
  rewrite (hook_call_set_weights o w depth var_list ws1 r ws2 Hcls Halloc Hset).
  split; [by destruct Hr as [-> | ->]|]. by repeat split.
Qed.

(** C10: an exception of the class's allocation routine, and any exception of
    [set_weights] other than [ValueError], leaves the first
    allocation-triggering call of a hooked optimizer with that exception; the
    transient attributes are still there and the wrapper is still installed,
    so the next call runs the hook again. *)
Theorem C10_other_exceptions_propagate o w depth var_list e ws0 ws1 :
  lookup_create_all_weights o = ClassCreateAllWeights →
  create_all_weights_impl var_list (opt_weights o) = (Raise e, ws1)
  ∨ (create_all_weights_impl var_list (opt_weights o) = (Ok tt, ws0)
     ∧ set_weights_impl w ws0 = (Raise e, ws1) ∧ e ≠ ValueError) →
  ∃ o', call_create_all_weights (S (S depth)) var_list (_restore_optimizer_weights o w)
        = (Raise e, o')
    ∧ _restored_weights o' = Some w
    ∧ _create_all_weights_orig o' = Some ClassCreateAllWeights
    ∧ hook_attached o' = true
    ∧ opt_weights o' = ws1
    ∧ ∀ d vl, call_create_all_weights (S d) vl o' = _temp_create_all_weights d vl o'.
Proof.
  intros Hcls Hfail. exists (hooked o w ws1).
  assert (Hrest : _restored_weights (hooked o w ws1) = Some w
    ∧ _create_all_weights_orig (hooked o w ws1) = Some ClassCreateAllWeights
    ∧ hook_attached (hooked o w ws1) = true
    ∧ opt_weights (hooked o w ws1) = ws1
    ∧ ∀ d vl, call_create_all_weights (S d) vl (hooked o w ws1)
              = _temp_create_all_weights d vl (hooked o w ws1)).
  { unfold hooked. simpl. rewrite Hcls. by repeat split. }
  split; [|exact Hrest].
  destruct Hfail as [Halloc | (Halloc & Hset & Hne)].
  - by apply hook_call_alloc_raises.
  - rewrite (hook_call_set_weights o w depth var_list ws0 _ ws1 Hcls Halloc Hset).
    by destruct e.
Qed.

End Hook.

(** C3: with Keras's [set_weights], a pending weight list whose shapes differ
    from the freshly allocated weights does not make the first
    allocation-triggering call raise: the call returns, the pending weights
    are dropped, and the optimizer's weights are the freshly allocated ones. *)
Theorem C3_shape_mismatch_is_swallowed
    (alloc : list ndarray -> M (list ndarray) unit) o pending depth var_list ws1 :
  lookup_create_all_weights o = ClassCreateAllWeights →
  alloc var_list (opt_weights o) = (Ok tt, ws1) →
  shapes_match pending ws1 = false →
  ∃ o', call_create_all_weights (H:=keras_optimizer_api alloc) (S (S depth)) var_list
          (_restore_optimizer_weights o (Some pending))
        = (Ok tt, o')
    ∧ opt_weights o' = ws1
    ∧ _restored_weights o' = None
    ∧ hook_attached o' = false.
Proof.
  intros Hcls Halloc Hshape. exists (unhooked ws1).
  split; [|done].
  rewrite (hook_call_set_weights (H:=keras_optimizer_api alloc) o (Some pending) depth
             var_list ws1 (Raise ValueError) ws1 Hcls Halloc); [done|].
  simpl. by rewrite Hshape.
Qed.

Lemma C2_hook_fires_once_witness :
  ∃ o', call_create_all_weights (H:=momentum_api) 2 [kernel]
          (_restore_optimizer_weights new_optimizer (Some trained_weights))
        = (Ok tt, o')
    ∧ _restored_weights o' = None
    ∧ lookup_create_all_weights o' = ClassCreateAllWeights
    ∧ hook_attached o' = false
    ∧ opt_weights o' = trained_weights
    ∧ _create_all_weights_orig o' = Some ClassCreateAllWeights
    ∧ ∀ d vl, call_create_all_weights (H:=momentum_api) (S d) vl o'
              = on_weights (@create_all_weights_impl momentum_api vl) o'.
Proof.
  apply (C2_hook_fires_once (H:=momentum_api) new_optimizer (Some trained_weights) 0
           [kernel] [ {| shape := []; values := [0%Z] |}; zeros_like kernel ]
           (Ok tt) trained_weights);
    [reflexivity | reflexivity | reflexivity | left; reflexivity].
Defined.

(** C2 as stated fails: after the hook has fired, [_create_all_weights_orig]
    is still an attribute of the optimizer. *)
Lemma C2_saved_routine_stays :
  ∃ o', call_create_all_weights (H:=momentum_api) 2 [kernel]
          (_restore_optimizer_weights new_optimizer (Some trained_weights))
        = (Ok tt, o')
    ∧ _create_all_weights_orig o' ≠ None.
Proof. eexists. split; [reflexivity | discriminate]. Qed.

Lemma C3_shape_mismatch_is_swallowed_witness :
  ∃ o', call_create_all_weights (H:=keras_optimizer_api momentum_create_all_weights) 2
          [kernel] (_restore_optimizer_weights new_optimizer (Some []))
        = (Ok tt, o')
    ∧ opt_weights o' = [ {| shape := []; values := [0%Z] |}; zeros_like kernel ]
    ∧ _restored_weights o' = None
    ∧ hook_attached o' = false.
Proof.
  apply (C3_shape_mismatch_is_swallowed momentum_create_all_weights new_optimizer [] 0
           [kernel]); reflexivity.
Defined.

Lemma C10_other_exceptions_propagate_witness :
  (∃ o', call_create_all_weights (H:=failing_alloc_api) 2 [kernel]
           (_restore_optimizer_weights new_optimizer (Some trained_weights))
         = (Raise (OtherError "ResourceExhaustedError"), o')
     ∧ _restored_weights o' = Some (Some trained_weights)
     ∧ _create_all_weights_orig o' = Some ClassCreateAllWeights
     ∧ hook_attached o' = true
     ∧ opt_weights o' = []
     ∧ ∀ d vl, call_create_all_weights (H:=failing_alloc_api) (S d) vl o'
               = _temp_create_all_weights (H:=failing_alloc_api) d vl o')
  ∧ (∃ o', call_create_all_weights (H:=momentum_api) 2 [kernel]
             (_restore_optimizer_weights new_optimizer None)
           = (Raise TypeError, o')
       ∧ _restored_weights o' = Some None
       ∧ _create_all_weights_orig o' = Some ClassCreateAllWeights
       ∧ hook_attached o' = true
       ∧ opt_weights o' = [ {| shape := []; values := [0%Z] |}; zeros_like kernel ]
       ∧ ∀ d vl, call_create_all_weights (H:=momentum_api) (S d) vl o'
                 = _temp_create_all_weights (H:=momentum_api) d vl o').
Proof.
  split.
  - apply (C10_other_exceptions_propagate (H:=failing_alloc_api) new_optimizer
             (Some trained_weights) 0 [kernel] (OtherError "ResourceExhaustedError") [] []);
      [reflexivity | left; reflexivity].
  - apply (C10_other_exceptions_propagate (H:=momentum_api) new_optimizer None 0 [kernel]
             TypeError [ {| shape := []; values := [0%Z] |}; zeros_like kernel ]
             [ {| shape := []; values := [0%Z] |}; zeros_like kernel ]);
      [reflexivity | right; repeat split; discriminate].
Defined.

(** ** Running computations *)

Lemma bind_ok {S A B} (m : M S A) (k : A -> M S B) s a s' :
  m s = (Ok a, s') → bind m k s = k a s'.
Proof. unfold bind. by intros ->. Qed.

Lemma bind_raise {S A B} (m : M S A) (k : A -> M S B) s e s' :
  m s = (Raise e, s') → bind m k s = (Raise e, s').
Proof. unfold bind. by intros ->. Qed.

Lemma bind_inv_ok {S A B} (m : M S A) (k : A -> M S B) s b s2 :
  bind m k s = (Ok b, s2) → ∃ a s1, m s = (Ok a, s1) ∧ k a s1 = (Ok b, s2).
Proof.
  unfold bind. destruct (m s) as [[a|e] s1]; [|discriminate]. eauto.
Qed.

Lemma try_finally_inv_ok {S A} (m : M S A) (fin : M S unit) s a s2 :
  try_finally m fin s = (Ok a, s2) → ∃ s1, m s = (Ok a, s1).
Proof.
  unfold try_finally. destruct (m s) as [r s1].
  destruct (fin s1) as [[[]|e] s3]; [|discriminate]. intros [= -> ->]. eauto.
Qed.

Lemma for_each_ext {S A} (xs : list A) (f g : A -> M S unit) :
  (∀ x, x ∈ xs → ∀ s, f x s = g x s) → ∀ s, for_each xs f s = for_each xs g s.
Proof.
  induction xs as [|x xs IH]; intros Hfg s; [done|]. simpl. unfold bind.
  rewrite Hfg by left. destruct (g x s) as [[[]|e] s']; [|done].
  apply IH. intros y Hy. apply Hfg. by right.
Qed.


Lemma for_each_fmap {S A A'} (h : A -> A') (xs : list A) (f : A' -> M S unit) s :
  for_each (h <$> xs) f s = for_each xs (fun x => f (h x)) s.
Proof.
  revert s. induction xs as [|x xs IH]; intros s; [done|]. simpl. unfold bind.
  destruct (f (h x) s) as [[[]|e] s']; [|done]. apply IH.
Qed.


(** ** Strings *)

Lemma str_app_cons x (a b : string) : String x a +:+ b = String x (a +:+ b).
Proof. reflexivity. Qed.

Lemma str_app_nil_l (b : string) : "" +:+ b = b.
Proof. reflexivity. Qed.

Lemma str_app_assoc (a b c : string) : (a +:+ b) +:+ c = a +:+ (b +:+ c).
Proof. induction a as [|x a IH]; [done|]. by rewrite !str_app_cons, IH. Qed.

Lemma str_app_nil_r (a : string) : a +:+ "" = a.
Proof. induction a as [|x a IH]; [done|]. by rewrite str_app_cons, IH. Qed.

Lemma str_app_eq_nil (a b : string) : a +:+ b = "" → a = "" ∧ b = "".
Proof. destruct a; [done|]. by rewrite str_app_cons. Qed.

Lemma startswith_iff s p : startswith s p = true ↔ ∃ r, s = p +:+ r.
Proof.
  unfold startswith. revert s. induction p as [|a p IH]; intros s.
  - destruct s; simpl; (split; [intros _; by eexists | done]).
  - destruct s as [|b s]; simpl; [split; [done | by intros [r Hr]]|].
    destruct (ascii_dec a b) as [-> | Hne].
    + rewrite IH. split; intros [r Hr]; exists r.
      * by rewrite Hr.
      * rewrite str_app_cons in Hr. by injection Hr.
    + split; [done|]. intros [r Hr]. rewrite str_app_cons in Hr.
      injection Hr as -> _. done.
Qed.


Lemma has_sep_app a b : has_sep (a +:+ b) = has_sep a || has_sep b.
Proof.
  induction a as [|c a IH]; [done|]. rewrite str_app_cons. simpl.
  rewrite IH. by rewrite orb_assoc.
Qed.


Lemma startswith_sep_has_sep n : startswith n "/" = true → has_sep n = true.
Proof. rewrite startswith_iff. intros [r ->]. reflexivity. Qed.



(** *** Splitting and joining at the separator *)

Lemma str_split_cons_sep r : str_split (String "/" r) = "" :: str_split r.
Proof. reflexivity. Qed.

Lemma str_split_not_nil s : ∃ h t, str_split s = h :: t.
Proof.
  induction s as [|c s (h & t & IH)]; [by eexists _, _|]. simpl.
  destruct (is_sep c); [by eexists _, _|]. rewrite IH. by eexists _, _.
Qed.

Lemma str_split_app_sep a b : str_split (a +:+ String "/" b) = str_split a ++ str_split b.
Proof.
  induction a as [|c a IH]; [done|]. rewrite str_app_cons. simpl.
  destruct (is_sep c); [by rewrite IH|].
  rewrite IH. by destruct (str_split_not_nil a) as (h & t & ->).
Qed.

Lemma str_split_no_sep s : has_sep s = false → str_split s = [s].
Proof.
  induction s as [|c s IH]; [done|]. simpl. intros [Hc Hs]%orb_false_elim.
  by rewrite Hc, IH.
Qed.


Lemma sep_join_cons c cs : cs ≠ [] → sep_join (c :: cs) = c +:+ "/" +:+ sep_join cs.
Proof. by destruct cs. Qed.

Lemma sep_join_app cs1 cs2 :
  cs1 ≠ [] → cs2 ≠ [] → sep_join (cs1 ++ cs2) = sep_join cs1 +:+ "/" +:+ sep_join cs2.
Proof.
  intros H1 H2. induction cs1 as [|c cs1 IH]; [done|].
  destruct cs1 as [|c' cs1].
  - simpl. by destruct cs2.
  - change ((c :: c' :: cs1) ++ cs2) with (c :: ((c' :: cs1) ++ cs2)).
    rewrite sep_join_cons by done. rewrite IH by done.
    rewrite (sep_join_cons c (c' :: cs1)) by done. by rewrite !str_app_assoc.
Qed.

Lemma str_split_sep_join cs :
  cs ≠ [] → Forall (fun c => has_sep c = false) cs → str_split (sep_join cs) = cs.
Proof.
  induction cs as [|c cs IH]; [done|]. intros _ Hcs. inversion_clear Hcs.
  destruct cs as [|c' cs]; [by apply str_split_no_sep|].
  rewrite sep_join_cons by done. change ("/" +:+ ?x) with (String "/" x).
  rewrite str_split_app_sep, str_split_no_sep by done. by rewrite IH.
Qed.

(** *** Names *)

Lemma name_ok_no_sep n : name_ok n → has_sep n = false.
Proof.
  unfold name_ok, valid_name. intros Hn. destruct (has_sep n); [|done].
  by rewrite andb_false_r in Hn.
Qed.

Lemma name_ok_nonempty n : name_ok n → nonempty n = true.
Proof.
  unfold name_ok, valid_name. intros Hn. destruct (nonempty n); [done|]. done.
Qed.

Lemma name_ok_ne_nil n : name_ok n → n ≠ "".
Proof. intros Hn ->. done. Qed.

Lemma names_sep_free cs : Forall name_ok cs → Forall (fun c => has_sep c = false) cs.
Proof. intros Hcs. eapply Forall_impl; [done|]. apply name_ok_no_sep. Qed.

Lemma filter_nonempty_names cs : Forall name_ok cs → List.filter nonempty cs = cs.
Proof.
  induction 1 as [|c cs Hc _ IH]; [done|]. simpl.
  by rewrite (name_ok_nonempty c Hc), IH.
Qed.

Lemma path_comps_sep_join cs : Forall name_ok cs → path_comps (sep_join cs) = cs.
Proof.
  intros Hcs. unfold path_comps. destruct (decide (cs = [])) as [-> | Hne]; [done|].
  rewrite str_split_sep_join by auto using names_sep_free.
  by apply filter_nonempty_names.
Qed.

Lemma endswith_sep_has_sep s : endswith_sep s = true → has_sep s = true.
Proof.
  induction s as [|c s IH]; [done|]. simpl. destruct s as [|c' s].
  - intros ->. done.
  - intros Hs. rewrite IH by done. by rewrite orb_true_r.
Qed.

Lemma endswith_sep_app a b : b ≠ "" → endswith_sep (a +:+ b) = endswith_sep b.
Proof.
  intros Hb. induction a as [|c a IH]; [done|]. rewrite str_app_cons. simpl.
  destruct (a +:+ b) eqn:Hab; [|done].
  apply str_app_eq_nil in Hab as [_ ?]. done.
Qed.

Lemma endswith_sep_name n : name_ok n → endswith_sep n = false.
Proof.
  intros Hn. destruct (endswith_sep n) eqn:He; [|done].
  apply endswith_sep_has_sep in He. by rewrite name_ok_no_sep in He.
Qed.

Lemma startswith_sep_name n : name_ok n → startswith n "/" = false.
Proof.
  intros Hn. destruct (startswith n "/") eqn:He; [|done].
  apply startswith_sep_has_sep in He. by rewrite name_ok_no_sep in He.
Qed.

Lemma sep_join_names_ne_nil cs : cs ≠ [] → Forall name_ok cs → sep_join cs ≠ "".
Proof.
  destruct cs as [|c cs]; [done|]. intros _ Hcs. inversion_clear Hcs.
  destruct cs; simpl.
  - by apply name_ok_ne_nil.
  - intros [Hc _]%str_app_eq_nil. by apply (name_ok_ne_nil c).
Qed.

Lemma startswith_sep_cons x r : startswith (String x r) "/" = is_sep x.
Proof.
  destruct (startswith (String x r) "/") eqn:E.
  - apply startswith_iff in E as [q Hq]. rewrite str_app_cons in Hq.
    by injection Hq as -> _.
  - destruct (is_sep x) eqn:Hx; [|done]. apply Ascii.eqb_eq in Hx as ->.
    assert (startswith (String "/" r) "/" = true) as Ht; [|congruence].
    apply startswith_iff. by exists r.
Qed.

Lemma startswith_sep_app a b : a ≠ "" → startswith (a +:+ b) "/" = startswith a "/".
Proof.
  destruct a as [|x a]; [done|]. intros _.
  by rewrite str_app_cons, !startswith_sep_cons.
Qed.

Lemma startswith_sep_sep_join cs :
  Forall name_ok cs → startswith (sep_join cs) "/" = false.
Proof.
  destruct 1 as [|c cs Hc Hcs]; [done|].
  destruct cs; simpl; [by apply startswith_sep_name|].
  rewrite startswith_sep_app by (by apply name_ok_ne_nil).
  by apply startswith_sep_name.
Qed.

Lemma endswith_sep_sep_join cs :
  cs ≠ [] → Forall name_ok cs → endswith_sep (sep_join cs) = false.
Proof.
  induction cs as [|c cs IH]; [done|]. intros _ Hcs. inversion_clear Hcs.
  destruct cs as [|c' cs]; [by apply endswith_sep_name|].
  rewrite sep_join_cons by done.
  rewrite endswith_sep_app.
  - rewrite endswith_sep_app by (by apply sep_join_names_ne_nil). by apply IH.
  - intros [? _]%str_app_eq_nil. done.
Qed.

(** *** Paths below a staging root [ram://u] *)

Lemma join_clean a x :
  clean a → startswith x "/" = false → join a x = a +:+ "/" +:+ x.
Proof.
  intros [Ha He] Hx. unfold join. rewrite Hx, He.
  by apply String.eqb_neq in Ha as ->.
Qed.

Lemma clean_app a b : clean b → clean (a +:+ b).
Proof.
  intros [Hb He]. split.
  - by intros [_ ?]%str_app_eq_nil.
  - by rewrite endswith_sep_app.
Qed.

Lemma clean_name n : name_ok n → clean n.
Proof. split; [by apply name_ok_ne_nil | by apply endswith_sep_name]. Qed.

Lemma clean_sep_join cs : cs ≠ [] → Forall name_ok cs → clean (sep_join cs).
Proof.
  split; [by apply sep_join_names_ne_nil | by apply endswith_sep_sep_join].
Qed.

Lemma loc_path_ram u cs :
  name_ok u → Forall name_ok cs → cs ≠ [] →
  loc_path ("ram://" +:+ u, cs) = "ram://" +:+ u +:+ "/" +:+ sep_join cs.
Proof.
  intros Hu Hcs Hne. destruct cs as [|c cs]; [done|].
  change (loc_path ("ram://" +:+ u, c :: cs))
    with (join ("ram://" +:+ u) (sep_join (c :: cs))).
  rewrite join_clean.
  - by rewrite str_app_assoc.
  - by apply clean_app, clean_name.
  - by apply startswith_sep_sep_join.
Qed.

Lemma clean_loc_path u cs :
  name_ok u → Forall name_ok cs → clean (loc_path ("ram://" +:+ u, cs)).
Proof.
  intros Hu Hcs. destruct (decide (cs = [])) as [-> | Hne].
  - by apply clean_app, clean_name.
  - rewrite loc_path_ram by done. rewrite <- str_app_assoc.
    apply clean_app. change ("/" +:+ ?x) with (String "/" x).
    replace (String "/" (sep_join cs)) with ("/" +:+ sep_join cs) by done.
    by apply clean_app, clean_sep_join.
Qed.

Lemma join_loc_path u cs n :
  name_ok u → Forall name_ok cs → name_ok n →
  join (loc_path ("ram://" +:+ u, cs)) n = loc_path ("ram://" +:+ u, cs ++ [n]).
Proof.
  intros Hu Hcs Hn.
  rewrite join_clean by (by apply clean_loc_path || by apply startswith_sep_name).
  rewrite (loc_path_ram u (cs ++ [n])); [|done| |by destruct cs].
  2:{ apply Forall_app. by repeat constructor. }
  destruct (decide (cs = [])) as [-> | Hne].
  - change (loc_path ("ram://" +:+ u, [])) with ("ram://" +:+ u).
    by rewrite str_app_assoc.
  - rewrite loc_path_ram, sep_join_app by done. by rewrite !str_app_assoc.
Qed.


Lemma span_sep_no_sep u : has_sep u = false → span_sep u = (u, "").
Proof.
  induction u as [|c u IH]; [done|]. simpl. intros [Hc Hu]%orb_false_elim.
  by rewrite Hc, IH.
Qed.

Lemma span_sep_app u r :
  has_sep u = false → span_sep (u +:+ String "/" r) = (u, String "/" r).
Proof.
  induction u as [|c u IH]; [done|]. rewrite str_app_cons. simpl.
  intros [Hc Hu]%orb_false_elim. by rewrite Hc, IH.
Qed.

Lemma parse_path_ram t :
  parse_path ("ram://" +:+ t)
  = let (host, p) := span_sep t in ("ram://" +:+ host, path_comps p).
Proof. reflexivity. Qed.

Lemma parse_loc_path u cs :
  name_ok u → Forall name_ok cs →
  parse_path (loc_path ("ram://" +:+ u, cs)) = ("ram://" +:+ u, cs).
Proof.
  intros Hu Hcs. destruct (decide (cs = [])) as [-> | Hne].
  - unfold loc_path. simpl. rewrite parse_path_ram.
    by rewrite span_sep_no_sep by (by apply name_ok_no_sep).
  - rewrite loc_path_ram by done. rewrite parse_path_ram.
    change ("/" +:+ ?x) with (String "/" x).
    rewrite span_sep_app by (by apply name_ok_no_sep).
    unfold path_comps. rewrite str_split_cons_sep. simpl.
    fold (path_comps (sep_join cs)). by rewrite path_comps_sep_join.
Qed.

Lemma dir_head_no_sep n : has_sep n = false → dir_head n = "".
Proof. destruct n; [done|]. simpl. by intros ->. Qed.

Lemma dir_head_app a n :
  has_sep n = false → dir_head (a +:+ String "/" n) = a +:+ "/".
Proof.
  intros Hn. induction a as [|c a IH].
  - rewrite str_app_nil_l. simpl. by rewrite dir_head_no_sep.
  - rewrite !str_app_cons. simpl.
    rewrite has_sep_app. simpl. rewrite orb_true_r, orb_true_r. by rewrite IH.
Qed.

Lemma rstrip_sep_clean a : clean a → rstrip_sep (a +:+ "/") = a.
Proof.
  intros [Ha He]. induction a as [|c a IH]; [done|]. rewrite str_app_cons. simpl.
  destruct a as [|c' a].
  - rewrite str_app_nil_l. simpl. simpl in He. by rewrite He.
  - rewrite IH by done. done.
Qed.

Lemma all_sep_clean a b : clean a → all_sep (a +:+ b) = false.
Proof.
  intros [Ha He]. induction a as [|c a IH]; [done|]. rewrite str_app_cons. simpl.
  destruct a as [|c' a].
  - simpl in He. by rewrite He.
  - rewrite IH by done. by rewrite andb_false_r.
Qed.

Lemma dirname_clean a n : clean a → has_sep n = false → dirname (a +:+ "/" +:+ n) = a.
Proof.
  intros Ha Hn. unfold dirname. change ("/" +:+ n) with (String "/" n).
  rewrite dir_head_app by done. rewrite all_sep_clean by done.
  destruct (String.eqb_spec (a +:+ "/") "") as [[? _]%str_app_eq_nil | _].
  - by destruct Ha.
  - simpl. by apply rstrip_sep_clean.
Qed.

Lemma dirname_loc_path u cs n :
  name_ok u → Forall name_ok cs → name_ok n →
  dirname (loc_path ("ram://" +:+ u, cs ++ [n])) = loc_path ("ram://" +:+ u, cs).
Proof.
  intros Hu Hcs Hn. rewrite <- join_loc_path by done.
  rewrite join_clean by (by apply clean_loc_path || by apply startswith_sep_name).
  apply dirname_clean; [by apply clean_loc_path | by apply name_ok_no_sep].
Qed.

(** *** [os.path.relpath] below a staging root *)

Lemma name_ok_comp_ok n : name_ok n → comp_ok n.
Proof. split; [by apply name_ok_nonempty | by apply name_ok_no_sep]. Qed.









#[local] Arguments Ascii.eqb : simpl never.












(** ** The storage medium below a staging root *)

Lemma gfile_read_loc (u : string) (cs : list string) (d : list byte) (fs : filesystem) :
  name_ok u → Forall name_ok cs →
  fs !! ("ram://" +:+ u, cs) = Some (File d) →
  gfile_read (loc_path ("ram://" +:+ u, cs)) fs = (Ok d, fs).
Proof.
  intros Hu Hcs Hf. unfold gfile_read. rewrite parse_loc_path by done.
  by rewrite Hf.
Qed.


Lemma gfile_write_loc (u : string) (cs : list string) (d : list byte) (fs : filesystem) :
  name_ok u → Forall name_ok cs →
  fs !! ("ram://" +:+ u, cs) ≠ Some Directory →
  gfile_write (loc_path ("ram://" +:+ u, cs)) d fs
  = (Ok tt, <[("ram://" +:+ u, cs) := File d]> fs).
Proof.
  intros Hu Hcs Hn. unfold gfile_write. rewrite parse_loc_path by done.
  by destruct (fs !! _) as [[]|].
Qed.

Lemma elem_of_inits {A} (q p : list A) : q ∈ inits p ↔ q `prefix_of` p.
Proof.
  revert q. induction p as [|x p IH]; intros q; simpl.
  - rewrite list_elem_of_singleton. split; [intros ->; done|].
    by intros ->%prefix_nil_inv.
  - rewrite elem_of_cons, list_elem_of_fmap. split.
    + intros [-> | (q' & -> & Hq')]; [apply prefix_nil|].
      apply prefix_cons. by apply IH.
    + destruct q as [|y q]; [by left|]. intros Hpre. right.
      pose proof (prefix_cons_inv_1 _ _ _ _ Hpre) as ->.
      apply prefix_cons_inv_2 in Hpre. exists q. split; [done|]. by apply IH.
Qed.

(** Creating directories at a list of locations none of which holds a file. *)
Lemma for_each_mkdir (ls : list location) (fs : filesystem) :
  (∀ l d, l ∈ ls → fs !! l ≠ Some (File d)) →
  ∃ fs', for_each ls mkdir fs = (Ok tt, fs')
    ∧ ∀ k, fs' !! k = if decide (k ∈ ls) then Some Directory else fs !! k.
Proof.
  revert fs. induction ls as [|l ls IH]; intros fs Hfs.
  - exists fs. split; [done|]. intros k. by rewrite decide_False by apply not_elem_of_nil.
  - simpl. unfold bind, mkdir at 1.
    assert (fs !! l = Some Directory ∨ fs !! l = None) as Hl.
    { destruct (fs !! l) as [[d|]|] eqn:E; auto. by destruct (Hfs l d (list_elem_of_here _ _)). }
    destruct (IH (<[l := Directory]> fs)) as (fs' & Hrun & Hlook).
    { intros l' d Hl'. destruct (decide (l = l')) as [<- | Hne].
      - by rewrite lookup_insert_eq.
      - rewrite lookup_insert_ne by done. apply Hfs. by right. }
    exists fs'. split.
    + by destruct Hl as [-> | ->].
    + intros k. rewrite Hlook. destruct (decide (k = l)) as [-> | Hne].
      * rewrite (decide_True _ _ (list_elem_of_here l ls)).
        rewrite lookup_insert_eq. by destruct (decide (l ∈ ls)).
      * rewrite lookup_insert_ne by done.
        destruct (decide (k ∈ ls)) as [Hin | Hnin].
        -- by rewrite decide_True by (by right).
        -- rewrite decide_False; [done|]. by intros [? | ?]%elem_of_cons.
Qed.

Lemma gfile_makedirs_loc (u : string) (p : list string) (fs : filesystem) :
  name_ok u → Forall name_ok p →
  (∀ q d, q `prefix_of` p → fs !! ("ram://" +:+ u, q) ≠ Some (File d)) →
  ∃ fs', gfile_makedirs (loc_path ("ram://" +:+ u, p)) fs = (Ok tt, fs')
    ∧ (∀ r cs, r ≠ "ram://" +:+ u → fs' !! (r, cs) = fs !! (r, cs))
    ∧ (∀ cs, fs' !! ("ram://" +:+ u, cs)
             = if decide (cs `prefix_of` p) then Some Directory
               else fs !! ("ram://" +:+ u, cs)).
Proof.
  intros Hu Hp Hfs. unfold gfile_makedirs. rewrite parse_loc_path by done. simpl.
  assert (∀ (f : list string → M filesystem unit) ls s,
            for_each ls f s
            = for_each ((fun comps => ("ram://" +:+ u, comps)) <$> ls)
                (fun l => f l.2) s) as Hmap.
  { intros f ls s. by rewrite for_each_fmap. }
  destruct (for_each_mkdir ((fun comps => ("ram://" +:+ u, comps)) <$> inits p) fs)
    as (fs' & Hrun & Hlook).
  { intros l d (q & -> & Hq)%list_elem_of_fmap. apply Hfs. by apply elem_of_inits. }
  exists fs'. split; [|split].
  - rewrite <- Hrun. rewrite for_each_fmap. done.
  - intros r cs Hr. rewrite Hlook. rewrite decide_False; [done|].
    intros (q & [= -> ->] & _)%list_elem_of_fmap. done.
  - intros cs. rewrite Hlook. destruct (decide (cs `prefix_of` p)) as [Hpre | Hnpre].
    + rewrite decide_True; [done|]. apply list_elem_of_fmap. exists cs.
      split; [done|]. by apply elem_of_inits.
    + rewrite decide_False; [done|].
      intros (q & [= ->] & Hq%elem_of_inits)%list_elem_of_fmap. done.
Qed.

(** *** Directory trees of files *)

Lemma valid_tree_ok files : valid_tree files = true → tree_ok files.
Proof.
  unfold valid_tree. rewrite !andb_true_iff, !forallb_forall, bool_decide_eq_true.
  intros [[Hpaths Hnodup] Hpre]. split; [|split; [done|]].
  - apply List.Forall_forall. intros f Hf. specialize (Hpaths f Hf).
    apply andb_true_iff in Hpaths as [Hne Hnames]. split.
    + by destruct (f.1).
    + apply List.Forall_forall. intros n Hn.
      rewrite forallb_forall in Hnames. by apply Hnames.
  - intros f g Hf%list_elem_of_In Hg%list_elem_of_In. specialize (Hpre f Hf).
    rewrite forallb_forall in Hpre. specialize (Hpre g Hg).
    by apply bool_decide_eq_true in Hpre.
Qed.

Lemma tree_ok_perm files files' : files ≡ₚ files' → tree_ok files → tree_ok files'.
Proof.
  intros Hperm (Hpaths & Hnodup & Hpre). split; [|split].
  - by rewrite <- Hperm.
  - by rewrite <- Hperm.
  - intros f g Hf Hg. apply Hpre; by rewrite Hperm.
Qed.

Lemma tree_ok_app_l a b : tree_ok (a ++ b) → tree_ok a.
Proof.
  intros (Hpaths & Hnodup & Hpre). split; [|split].
  - by apply Forall_app in Hpaths as [? _].
  - rewrite fmap_app in Hnodup. by apply NoDup_app in Hnodup as [? _].
  - intros f g Hf Hg. apply Hpre; apply elem_of_app; by left.
Qed.

Lemma tree_ok_path files f : tree_ok files → f ∈ files → path_ok f.1.
Proof. intros (Hpaths & _) Hf. by eapply (proj1 (Forall_forall _ _) Hpaths). Qed.

Lemma tree_ok_data files cs d d' :
  tree_ok files → (cs, d) ∈ files → (cs, d') ∈ files → d = d'.
Proof.
  intros (_ & Hnodup & _) H1 H2.
  apply list_elem_of_lookup in H1 as [i Hi]. apply list_elem_of_lookup in H2 as [j Hj].
  assert (i = j) as ->; [|congruence].
  eapply NoDup_lookup; [done| |]; by rewrite list_lookup_fmap, ?Hi, ?Hj.
Qed.

Lemma is_dir_of_names files p : tree_ok files → is_dir_of files p → Forall name_ok p.
Proof.
  intros Hok (f & Hf & [k Hk] & _). destruct (tree_ok_path files f Hok Hf) as [_ Hnames].
  rewrite Hk in Hnames. by apply Forall_app in Hnames as [? _].
Qed.

Lemma prefix_snoc_inv {A} (q p : list A) x :
  q `prefix_of` p ++ [x] → q `prefix_of` p ∨ q = p ++ [x].
Proof.
  intros [k Hk]. destruct k as [|y k _] using rev_ind.
  - right. by rewrite app_nil_r in Hk.
  - left. rewrite app_assoc in Hk. apply app_inj_tail in Hk as [-> _].
    by apply prefix_app_r.
Qed.

Lemma path_ok_snoc cs : path_ok cs → ∃ p n, cs = p ++ [n] ∧ Forall name_ok p ∧ name_ok n.
Proof.
  intros [Hne Hnames]. destruct cs as [|c cs _] using rev_ind; [done|].
  apply Forall_app in Hnames as [Hp Hn]. inversion_clear Hn. eauto.
Qed.

Lemma join_root_sep_join r cs : cs ≠ [] → join r (sep_join cs) = loc_path (r, cs).
Proof. by destruct cs. Qed.

(** Writing one file of a tree below the staging root: the loop body of
    [write_tree], which is also that of [unpack_extract]. *)
Lemma write_one_staged (u : string) (base : bool)
    (done : list (list string * list byte)) (cs : list string) (d : list byte)
    (fs0 fs : filesystem) :
  name_ok u → tree_ok (done ++ [(cs, d)]) → staged u base done fs0 fs →
  ∃ fs', bind (gfile_makedirs (dirname (join ("ram://" +:+ u) (sep_join cs))))
              (fun _ => gfile_write (join ("ram://" +:+ u) (sep_join cs)) d) fs
         = (Ok tt, fs')
    ∧ staged u base (done ++ [(cs, d)]) fs0 fs'.
Proof.
  intros Hu Hok [Hframe Hfiles Hdirs].
  assert (path_ok cs) as Hcs.
  { apply (tree_ok_path _ (cs, d) Hok), elem_of_app. right. by left. }
  assert (Hfree : ∀ q d', (q, d') ∈ done → q `prefix_of` cs → False).
  { intros q d' Hq Hpre. destruct Hok as (_ & Hnodup & Hprefix).
    assert (q = cs) as ->.
    { apply (Hprefix (q, d') (cs, d)); [| |done]; apply elem_of_app; [by left|].
      right. by left. }
    rewrite fmap_app in Hnodup. apply NoDup_app in Hnodup as (_ & Hdisj & _).
    apply (Hdisj cs); [|by left]. apply list_elem_of_fmap. by exists (cs, d'). }
  assert (Hfree' : ∀ f, f ∈ done → cs `prefix_of` f.1 → False).
  { intros [q d'] Hq Hpre. destruct Hok as (_ & Hnodup & Hprefix).
    assert (cs = q) as ->.
    { apply (Hprefix (cs, d) (q, d')); [| |done]; apply elem_of_app; [|by left].
      right. by left. }
    rewrite fmap_app in Hnodup. apply NoDup_app in Hnodup as (_ & Hdisj & _).
    apply (Hdisj q); [|by left]. apply list_elem_of_fmap. by exists (q, d'). }
  destruct (path_ok_snoc cs Hcs) as (p & n & -> & Hp & Hn).
  destruct Hcs as [_ Hcs].
  rewrite !(join_root_sep_join ("ram://" +:+ u) (p ++ [n])) by (by destruct p).
  rewrite dirname_loc_path by done.
  destruct (gfile_makedirs_loc u p fs Hu Hp) as (fs1 & Hmk & Hframe1 & Hlook1).
  { intros q d' Hq Hf. apply Hfiles in Hf. apply (Hfree q d' Hf).
    by apply prefix_app_r. }
  rewrite (bind_ok _ _ _ _ _ Hmk).
  assert (¬ p ++ [n] `prefix_of` p) as Hnpre by apply prefix_snoc_not.
  rewrite gfile_write_loc; [|done|done|].
  2:{ rewrite Hlook1, decide_False by done. intros [Hd | [_ Hd]]%Hdirs.
      - destruct Hd as (f & Hf & Hpre & _). by apply (Hfree' f).
      - by destruct p. }
  eexists. split; [done|]. split.
  - intros r c' Hr. rewrite lookup_insert_ne by congruence. by rewrite Hframe1, Hframe.
  - intros c' d'. rewrite elem_of_app, list_elem_of_singleton.
    destruct (decide (c' = p ++ [n])) as [-> | Hne].
    + rewrite lookup_insert_eq. split.
      * intros [= ->]. by right.
      * intros [Hin | [= ->]]; [|done]. destruct (Hfree _ _ Hin). done.
    + rewrite lookup_insert_ne by congruence. rewrite Hlook1.
      destruct (decide (c' `prefix_of` p)) as [Hpre | Hnp].
      * split; [done|]. intros [Hin | [= -> _]]; [|done].
        destruct (Hfree _ _ Hin). by apply prefix_app_r.
      * rewrite Hfiles. split; [by left|]. by intros [? | [= -> _]].
  - intros c'. destruct (decide (c' = p ++ [n])) as [-> | Hne].
    + rewrite lookup_insert_eq. split; [done|].
      intros [(f & [Hf | ->%list_elem_of_singleton]%elem_of_app & Hpre & Hnf) | [_ Hnil]].
      * destruct (Hfree' f Hf Hpre).
      * done.
      * by destruct p.
    + rewrite lookup_insert_ne by congruence. rewrite Hlook1.
      destruct (decide (c' `prefix_of` p)) as [Hpre | Hnp].
      * split; [intros _|done]. left. exists (p ++ [n], d).
        split; [|split; [by apply prefix_app_r | done]].
        apply elem_of_app. right. by left.
      * rewrite Hdirs. split.
        -- intros [(f & Hf & Hpre & Hnf) | ?]; [left|by right].
           exists f. split; [|done]. apply elem_of_app. by left.
        -- intros [(f & [Hf | ->%list_elem_of_singleton]%elem_of_app & Hpre & Hnf) | ?];
             [left; by exists f| |by right].
           simpl in *. by destruct (prefix_snoc_inv _ _ _ Hpre).
Qed.

Lemma write_loop_staged (u : string) (base : bool)
    (done rest : list (list string * list byte)) (fs0 fs : filesystem) :
  name_ok u → tree_ok (done ++ rest) → staged u base done fs0 fs →
  ∃ fs', for_each rest
           (fun '(comps, data) =>
              let dest := join ("ram://" +:+ u) (sep_join comps) in
              gfile_makedirs (dirname dest) ;; gfile_write dest data) fs
         = (Ok tt, fs')
    ∧ staged u base (done ++ rest) fs0 fs'.
Proof.
  intros Hu. revert done fs. induction rest as [|[cs d] rest IH]; intros done fs Hok Hst.
  - exists fs. rewrite app_nil_r. by split.
  - replace (done ++ (cs, d) :: rest) with ((done ++ [(cs, d)]) ++ rest) in *
      by (by rewrite <- app_assoc).
    destruct (write_one_staged u base done cs d fs0 fs Hu) as (fs1 & Hrun & Hst1);
      [by apply tree_ok_app_l in Hok | done |].
    destruct (IH _ fs1 Hok Hst1) as (fs' & Hrun' & Hst').
    exists fs'. split; [|done]. simpl for_each. by rewrite (bind_ok _ _ _ _ _ Hrun).
Qed.

Lemma fresh_root_staged (u : string) (fs0 : filesystem) :
  fresh_root u fs0 → staged u false [] fs0 fs0.
Proof.
  intros Hfresh. split; [done| |].
  - intros cs d. rewrite Hfresh. split; [done|]. by intros ?%not_elem_of_nil.
  - intros cs. rewrite Hfresh. split; [done|].
    intros [(f & ?%not_elem_of_nil & _) | [? _]]; done.
Qed.


Lemma sep_join_inj cs cs' :
  Forall name_ok cs → Forall name_ok cs' → sep_join cs = sep_join cs' → cs = cs'.
Proof.
  intros H1 H2 Heq. rewrite <- (path_comps_sep_join cs), <- (path_comps_sep_join cs') by done.
  by rewrite Heq.
Qed.

Lemma getmember_cons_ne n d ar name :
  n ≠ name → getmember ((n, d) :: ar) name = getmember ar name.
Proof.
  intros Hne%String.eqb_neq. simpl. rewrite Hne. by destruct (getmember ar name).
Qed.

Lemma getmember_not_in ar name : name ∉ ar.*1 → getmember ar name = None.
Proof.
  induction ar as [|[n d] ar IH]; [done|]. intros [Hne Hnin]%not_elem_of_cons.
  rewrite getmember_cons_ne by done. by apply IH.
Qed.

Lemma getmember_unique ar n d : NoDup ar.*1 → (n, d) ∈ ar → getmember ar n = Some d.
Proof.
  induction ar as [|[n' d'] ar IH]; [by intros _ ?%not_elem_of_nil|].
  intros [Hnin Hnodup]%NoDup_cons [[= <- <-] | Hin]%elem_of_cons.
  - simpl. rewrite getmember_not_in by done. by rewrite String.eqb_refl.
  - rewrite getmember_cons_ne; [by apply IH|]. intros ->. apply Hnin.
    apply list_elem_of_fmap. by exists (n, d).
Qed.

Lemma tar_of_names_NoDup files : tree_ok files → NoDup (tar_of files).*1.
Proof.
  intros Hok. unfold tar_of. rewrite <- list_fmap_compose.
  destruct Hok as (Hpaths & Hnodup & _).
  replace (fst ∘ (fun f : list string * list byte => (sep_join f.1, f.2)))
    with (sep_join ∘ (fst : list string * list byte → list string)) by done.
  rewrite list_fmap_compose. apply NoDup_fmap_2_strong; [|done].
  intros cs cs' (f & -> & Hf)%list_elem_of_fmap (g & -> & Hg)%list_elem_of_fmap.
  rewrite Forall_forall in Hpaths.
  apply sep_join_inj; by apply Hpaths.
Qed.

(** Extracting the archive of a tree into a fresh staging root. *)
Lemma unpack_extract_staged (u : string) (files : list (list string * list byte))
    (fs0 : filesystem) :
  name_ok u → tree_ok files → fresh_root u fs0 →
  ∃ fs', unpack_extract ("ram://" +:+ u) (tar_of files) fs0 = (Ok tt, fs')
    ∧ staged u false files fs0 fs'.
Proof.
  intros Hu Hok Hfresh.
  destruct (write_loop_staged u false [] files fs0 fs0 Hu Hok) as (fs' & Hrun & Hst);
    [by apply fresh_root_staged|].
  exists fs'. split; [|done]. rewrite <- Hrun.
  unfold unpack_extract, getnames, tar_of. rewrite <- list_fmap_compose, for_each_fmap.
  apply for_each_ext. intros [cs d] Hf s. simpl.
  assert (extractfile (tar_of files) (sep_join cs) = Ok d) as Hex.
  { unfold extractfile. rewrite (getmember_unique _ _ d); [done| |].
    - by apply tar_of_names_NoDup.
    - apply list_elem_of_fmap. by exists (cs, d). }
  unfold tar_of in Hex. unfold bind.
  destruct (gfile_makedirs _ s) as [[[]|e] s1]; [|done].
  by rewrite Hex.
Qed.

(** *** The loops over what the walk yields *)









(** *** What the walk yields below a staging root *)


Lemma omap_ext_in {A B} (f g : A → option B) (l : list A) :
  (∀ x, x ∈ l → f x = g x) → omap f l = omap g l.
Proof.
  induction l as [|x l IH]; intros Hfg; [done|].
  assert (omap f l = omap g l) as IH' by (apply IH; intros y Hy; apply Hfg; by right).
  change (omap f (x :: l)) with (match f x with Some y => y :: omap f l | None => omap f l end).
  change (omap g (x :: l)) with (match g x with Some y => y :: omap g l | None => omap g l end).
  rewrite (Hfg x) by left. by rewrite IH'.
Qed.




Lemma child_of_Some d l n : child_of d l = Some n → l = (d.1, d.2 ++ [n]).
Proof.
  unfold child_of. destruct (last l.2) as [m|]; [|done].
  case_bool_decide; [|done]. by intros [= <-].
Qed.


Section Walk.
Context (u : string) (base : bool) (files : list (list string * list byte)).
Context (fs0 fs : filesystem).
Hypothesis Hu : name_ok u.
Hypothesis Hok : tree_ok files.
Hypothesis Hst : staged u base files fs0 fs.
Hypothesis Htop : fs !! ("ram://" +:+ u, []) = Some Directory.

Let top : location := ("ram://" +:+ u, []).
Let E := map_to_list fs.
Let D := walk_dirs top E.

Lemma staged_dir_names p :
  fs !! ("ram://" +:+ u, p) = Some Directory → Forall name_ok p.
Proof.
  intros [Hd | [_ ->]]%(staged_dirs _ _ _ _ _ Hst); [|constructor].
  by apply (is_dir_of_names files).
Qed.

Lemma staged_file_path cs dat :
  fs !! ("ram://" +:+ u, cs) = Some (File dat) → path_ok cs.
Proof.
  intros Hf%(staged_files _ _ _ _ _ Hst). by apply (tree_ok_path files (cs, dat)).
Qed.

Lemma elem_of_walk_dirs d :
  d ∈ D ↔ d.1 = "ram://" +:+ u ∧ fs !! d = Some Directory.
Proof.
  unfold D, walk_dirs. rewrite elem_of_cons, list_elem_of_omap. split.
  - intros [-> | ([l n] & Hin & Hg)]; [done|]. simpl in Hg.
    apply elem_of_map_to_list in Hin.
    destruct n; simpl in Hg; [done|]. case_bool_decide as Hc; [|done].
    injection Hg as <-. by destruct Hc as [[? _] _].
  - intros [Hd1 Hd]. destruct (decide (d = top)) as [-> | Hne]; [by left|]. right.
    exists (d, Directory). split; [by apply elem_of_map_to_list|]. simpl.
    rewrite bool_decide_eq_true_2; [done|]. split; [|done]. split; [done|].
    apply prefix_nil.
Qed.






End Walk.

Lemma parse_path_root u : name_ok u → parse_path ("ram://" +:+ u) = ("ram://" +:+ u, []).
Proof. intros Hu. by apply (parse_loc_path u []). Qed.




(** *** The staging scope on the in-memory filesystem *)

Lemma scope_exit_ok (dir : string) (fs : filesystem) :
  bind (gfile_exists dir) (fun e : bool => if e then gfile_remove dir else ret tt) fs
  = (Ok tt, delete (parse_path dir) fs).
Proof.
  unfold bind, gfile_exists, gfile_remove. case_bool_decide as He.
  - by destruct He as [n ->].
  - unfold ret. rewrite delete_id; [done|]. by apply eq_None_not_Some.
Qed.

Lemma get_temp_folder_ram {PF : Platform} {A} (fresh : string)
    (body : string → M filesystem A) (fs : filesystem) :
  os_name ≠ "nt" →
  _get_temp_folder fresh body fs
  = let (r, fs1) := body ("ram://" +:+ fresh) fs in
    (r, delete (parse_path ("ram://" +:+ fresh)) fs1).
Proof.
  intros Hos%String.eqb_neq. unfold _get_temp_folder. rewrite Hos.
  unfold try_finally. destruct (body _ fs) as [r fs1]. by rewrite scope_exit_ok.
Qed.

(** ** The model archive *)





(** The scope around a body that returns [r] on the in-memory filesystem:
    the outcome is the body's, and the exit removes the entry of the staging
    root itself. *)
Lemma get_temp_folder_ram_run {PF : Platform} {A} (fresh : string)
    (body : string → M filesystem A) (fs fs1 : filesystem) (r : result A) :
  os_name ≠ "nt" → name_ok fresh →
  body ("ram://" +:+ fresh) fs = (r, fs1) →
  _get_temp_folder fresh body fs = (r, delete ("ram://" +:+ fresh, []) fs1).
Proof.
  intros Hos Hu Hbody. rewrite get_temp_folder_ram by done.
  by rewrite Hbody, parse_path_root.
Qed.



(** ** Packing and unpacking whole models *)


(** C5 (as amended): whenever [unpack_keras_model] returns a model, that
    model is the one [load_model] returned for the staging root with the hook
    attached by [attach_hook], and the hook is attached exactly when the
    loaded model has an optimizer; the weights argument plays no part. *)
Theorem C5_hook_attached_iff_optimizer {PF : Platform} {Core : Type}
    {API : KerasModelAPI Core} (fresh : string) (archive : tar_archive)
    (w : option (list ndarray)) (fs fs' : filesystem) (m' : Model Core) :
  unpack_keras_model fresh archive w fs = (Ok m', fs') →
  ∃ m fs1 fs2,
    load_model (staging_root fresh) fs1 = (Ok m, fs2)
    ∧ m' = attach_hook m w
    ∧ (model_hook_attached m' = true ↔ is_Some (optimizer m)).
Proof.
  unfold unpack_keras_model, _get_temp_folder, staging_root, TemporaryDirectory.
  intros Hrun.
  assert (∃ s0 s1, bind (unpack_extract (if String.eqb os_name "nt" then fresh
                                         else "ram://" +:+ fresh) archive)
                     (fun _ => bind (load_model (if String.eqb os_name "nt" then fresh
                                                 else "ram://" +:+ fresh))
                       (fun model => bind (unpack_cleanup
                                             (if String.eqb os_name "nt" then fresh
                                              else "ram://" +:+ fresh))
                         (fun _ => ret (attach_hook model w)))) s0 = (Ok m', s1))
    as (s0 & s1 & Hbody).
  { destruct (String.eqb os_name "nt").
    - apply bind_inv_ok in Hrun as ([] & s0 & _ & Hrun).
      apply try_finally_inv_ok in Hrun as [s1 Hrun]. eauto.
    - apply try_finally_inv_ok in Hrun as [s1 Hrun]. eauto. }
  apply bind_inv_ok in Hbody as ([] & fs1 & _ & Hbody).
  apply bind_inv_ok in Hbody as (m & fs2 & Hload & Hbody).
  apply bind_inv_ok in Hbody as ([] & fs3 & _ & [= <- _]).
  exists m, fs1, fs2. split; [done|]. split; [done|].
  unfold model_hook_attached, attach_hook. destruct (optimizer m) as [o|] eqn:Ho; simpl.
  - split; [by eauto | done].
  - rewrite Ho. split; [done | by intros [? ?]].
Qed.

(** C9: [pack_keras_metric] and [pack_keras_loss] return their unpack
    function and a one-element tuple holding the serialised configuration;
    when deserialising a serialised object gives an object of the same
    configuration, calling the returned function on the returned tuple gives
    an object whose configuration is the original's.  Both packers are pure
    functions of the object: they touch no weights and no storage. *)
Theorem C9_metric_and_loss_round_trip {Metric Loss : Type}
    {SM : KerasSerializable Metric} {SL : KerasSerializable Loss}
    {LM : KerasSerializableLaws Metric} {LL : KerasSerializableLaws Loss}
    (metric : Metric) (loss : Loss) :
  pack_keras_metric metric = (unpack_keras_metric, Tuple1 (keras_serialize metric))
  ∧ (∃ metric', apply1 (pack_keras_metric metric).1 (pack_keras_metric metric).2
                = Ok metric'
                ∧ get_config metric' = get_config metric)
  ∧ pack_keras_loss loss = (unpack_keras_loss, Tuple1 (keras_serialize loss))
  ∧ (∃ loss', apply1 (pack_keras_loss loss).1 (pack_keras_loss loss).2 = Ok loss'
              ∧ get_config loss' = get_config loss).
Proof.
  split; [reflexivity|]. split; [apply (deserialize_serialize metric)|].
  split; [reflexivity|]. apply (deserialize_serialize loss).
Qed.

(** ** The reference instances keep their contracts *)





Lemma toy_metric_laws : KerasSerializableLaws toy_metric (KS := toy_metric_serializable).
Proof. constructor. intros [n t]. by eexists. Qed.

Lemma toy_loss_laws : KerasSerializableLaws toy_loss (KS := toy_loss_serializable).
Proof. constructor. intros [n r]. by eexists. Qed.

(** ** Concrete runs *)

Lemma fresh_root_empty u : fresh_root u ∅.
Proof. intros cs. apply lookup_empty. Qed.





Lemma run_eta {S A} (p : result A * S) (r : result A) : p.1 = r → p = (r, p.2).
Proof. destruct p. by intros <-. Qed.

Lemma C5_hook_attached_iff_optimizer_witness :
  ∃ m fs1 fs2,
    load_model (KerasModelAPI := blob_api) (staging_root (PF := posix) "9c1d") fs1 = (Ok m, fs2)
    ∧ {| model_core := [x08; x01; x12];
         optimizer := Some (_restore_optimizer_weights new_optimizer
                              (Some trained_weights)) |}
      = attach_hook m (Some trained_weights)
    ∧ (model_hook_attached
         {| model_core := [x08; x01; x12];
            optimizer := Some (_restore_optimizer_weights new_optimizer
                                 (Some trained_weights)) |} = true
       ↔ is_Some (optimizer m)).
Proof.
  apply (C5_hook_attached_iff_optimizer (PF := posix) (API := blob_api) "9c1d"
           trained_archive (Some trained_weights) ∅
           (unpack_keras_model (PF := posix) (API := blob_api) "9c1d" trained_archive
              (Some trained_weights) ∅).2).
  apply run_eta. vm_compute. reflexivity.
Defined.

(** C5 as stated fails: a model with an optimizer unpacked without optimizer
    weights still gets the hook. *)
Lemma C5_hook_attached_without_weights :
  (unpack_keras_model (PF := posix) (API := blob_api) "9c1d" trained_archive None ∅).1
  = Ok {| model_core := [x08; x01; x12];
          optimizer := Some (_restore_optimizer_weights new_optimizer None) |}
  ∧ model_hook_attached
      {| model_core := [x08; x01; x12];
         optimizer := Some (_restore_optimizer_weights new_optimizer None) |} = true.
Proof. split; [vm_compute; reflexivity | reflexivity]. Qed.

Lemma C9_metric_and_loss_round_trip_witness :
  pack_keras_metric (SM := toy_metric_serializable)
    {| metric_name := "auc"; metric_threshold := 5 |}
  = (unpack_keras_metric, Tuple1 ("auc", 5%Z))
  ∧ (∃ metric', apply1 (pack_keras_metric (SM := toy_metric_serializable)
                          {| metric_name := "auc"; metric_threshold := 5 |}).1
                  (pack_keras_metric (SM := toy_metric_serializable)
                     {| metric_name := "auc"; metric_threshold := 5 |}).2
                = Ok metric'
                ∧ @get_config _ toy_metric_serializable metric' = ("auc", 5%Z))
  ∧ pack_keras_loss (SL := toy_loss_serializable)
      {| loss_name := "mse"; loss_reduction := "auto" |}
    = (unpack_keras_loss, Tuple1 [("name", "mse"); ("reduction", "auto")])
  ∧ (∃ loss', apply1 (pack_keras_loss (SL := toy_loss_serializable)
                        {| loss_name := "mse"; loss_reduction := "auto" |}).1
                (pack_keras_loss (SL := toy_loss_serializable)
                   {| loss_name := "mse"; loss_reduction := "auto" |}).2
              = Ok loss'
              ∧ @get_config _ toy_loss_serializable loss' = ("mse", "auto")).
Proof.
  apply (C9_metric_and_loss_round_trip (LM := toy_metric_laws) (LL := toy_loss_laws)
           {| metric_name := "auc"; metric_threshold := 5 |}
           {| loss_name := "mse"; loss_reduction := "auto" |}).
Defined.

(** C4 on the code: an archive whose model fails to load makes
    [unpack_keras_model] raise, and after the staging scope has exited the
    extracted files and the directory [variables] are still in the store
    below the staging root; only the entry of the root itself was removed. *)
Lemma C4_failed_unpack_leaves_the_staged_files :
  (unpack_keras_model (PF := posix) (API := blob_api) "9c1d" corrupt_archive None ∅).1
  = Raise (OtherError "OSError")
  ∧ (unpack_keras_model (PF := posix) (API := blob_api) "9c1d" corrupt_archive None ∅).2
    !! ("ram://9c1d", []) = None
  ∧ (unpack_keras_model (PF := posix) (API := blob_api) "9c1d" corrupt_archive None ∅).2
    !! ("ram://9c1d", ["saved_model.pb"]) = Some (File [x2a])
  ∧ (unpack_keras_model (PF := posix) (API := blob_api) "9c1d" corrupt_archive None ∅).2
    !! ("ram://9c1d", ["variables"; "variables.data"]) = Some (File [x08; x01; x12])
  ∧ (unpack_keras_model (PF := posix) (API := blob_api) "9c1d" corrupt_archive None ∅).2
    !! ("ram://9c1d", ["variables"]) = Some Directory.
Proof. repeat split; vm_compute; reflexivity. Qed.

(** ** The staging scope *)

(** On the in-memory filesystem the scope returns what its body returns,
    never raises on exit, and removes on exit the entry of the staging root
    and nothing else. *)
Lemma get_temp_folder_ram_exit {PF : Platform} {A} (fresh : string)
    (body : string → M filesystem A) (fs fs1 : filesystem) (r : result A) :
  os_name ≠ "nt" →
  body ("ram://" +:+ fresh) fs = (r, fs1) →
  ∃ fs2, _get_temp_folder fresh body fs = (r, fs2)
    ∧ fs2 !! parse_path ("ram://" +:+ fresh) = None
    ∧ ∀ l, l ≠ parse_path ("ram://" +:+ fresh) → fs2 !! l = fs1 !! l.
Proof.
  intros Hos Hbody. rewrite get_temp_folder_ram, Hbody by done.
  eexists. split; [done|]. split; [apply lookup_delete_eq|].
  intros l Hl. by apply lookup_delete_ne.
Qed.

(** Leaving the scope a second time, or with the root already removed,
    changes nothing and does not raise. *)
Lemma scope_exit_idempotent (dir : string) (fs : filesystem) :
  fs !! parse_path dir = None →
  bind (gfile_exists dir) (fun e : bool => if e then gfile_remove dir else ret tt) fs
  = (Ok tt, fs).
Proof. intros Hnone. rewrite scope_exit_ok. by rewrite delete_id. Qed.

(** On Windows the scope is [tempfile.TemporaryDirectory], whose exit removes
    the directory and everything below it. *)
Lemma get_temp_folder_nt_exit {PF : Platform} {A} (fresh : string)
    (body : string → M filesystem A) (fs fs0 fs1 : filesystem) (r : result A) :
  os_name = "nt" →
  gfile_makedirs fresh fs = (Ok tt, fs0) →
  body fresh fs0 = (r, fs1) →
  ∃ fs2, _get_temp_folder fresh body fs = (r, fs2)
    ∧ ∀ l, under (parse_path fresh) l → fs2 !! l = None.
Proof.
  intros Hos Hmk Hbody. unfold _get_temp_folder, TemporaryDirectory.
  rewrite Hos. simpl. rewrite (bind_ok _ _ _ _ _ Hmk).
  unfold try_finally. rewrite Hbody. unfold rmtree. eexists. split; [done|].
  intros l Hl. apply map_lookup_filter_None. right. intros n _ Hn. by apply Hn.
Qed.

(** ** The two reports of the walk *)

(** On a staged tree, the walk that reports entire paths yields what the walk
    that reports relative names yields, with every name joined to its walk
    root. *)
Lemma gfile_walk_entire_paths (u : string) (base : bool)
    (files : list (list string * list byte)) (fs0 fs : filesystem) :
  name_ok u → tree_ok files → staged u base files fs0 fs →
  ∃ groups,
    gfile_walk false ("ram://" +:+ u) fs = (Ok groups, fs)
    ∧ gfile_walk true ("ram://" +:+ u) fs = (Ok (full_names <$> groups), fs).
Proof.
  intros Hu Hok Hst. unfold gfile_walk. rewrite parse_path_root by done.
  destruct (fs !! ("ram://" +:+ u, [])) as [[d|]|] eqn:Htop;
    [by exists [] | | by exists []].
  eexists. split; [done|]. f_equal. f_equal.
  rewrite <- list_fmap_compose.
  apply list_eq_Forall2, Forall2_fmap, Forall_Forall2_diag, Forall_forall.
  intros [r p] [Hr Hd]%(elem_of_walk_dirs u fs Htop).
  simpl in Hr. subst r.
  pose proof (staged_dir_names u base files fs0 fs Hok Hst p Hd) as Hp.
  unfold full_names, walk_names. simpl. rewrite !list_fmap_omap.
  f_equal; [f_equal|]; apply omap_ext_in;
    intros [l n] Hin%elem_of_map_to_list; simpl;
    (destruct (Bool.eqb (is_directory n) _) eqn:Hkind; [|done]);
    (destruct (child_of _ l) as [m|] eqn:Hch; simpl; [|done]);
    apply child_of_Some in Hch; simpl in Hch; subst l;
    f_equal; symmetry; apply join_loc_path; try done.
  - destruct n; [done|].
    pose proof (staged_dir_names u base files fs0 fs Hok Hst _ Hin) as [_ Hm]%Forall_app.
    by inversion_clear Hm.
  - destruct n as [dat|]; [|done].
    destruct (staged_file_path u base files fs0 fs Hok Hst _ _ Hin) as [_ [_ Hm]%Forall_app].
    by inversion_clear Hm.
Qed.

(** ** Standalone optimizers *)

(** [unpack_keras_optimizer] attaches the hook to the optimizer it
    deserialises, with the weights [pack_keras_optimizer] captured. *)
Lemma unpack_keras_optimizer_attaches_hook {SO : KerasSerializable Optimizer}
    (optimizer optimizer' : Optimizer) :
  keras_deserialize (keras_serialize optimizer) = Ok optimizer' →
  apply2 (pack_keras_optimizer optimizer).1 (pack_keras_optimizer optimizer).2
  = Ok (_restore_optimizer_weights optimizer' (Some (get_weights optimizer)))
  ∧ hook_attached (_restore_optimizer_weights optimizer' (Some (get_weights optimizer)))
    = true.
Proof.
  intros Hde. split; [|done]. unfold apply2, pack_keras_optimizer. simpl.
  unfold unpack_keras_optimizer. by rewrite Hde.
Qed.

(** * Further properties of the code *)

(** ** The restoration hook at its edges *)

Section HookEdges.
Context `{OptimizerAPI}.

(** A wrapper whose saved routine is the wrapper itself never reaches the
    class's routine: every frame calls the next one. *)
Lemma temp_create_all_weights_self_saved depth var_list o :
  _create_all_weights_orig o = Some TempCreateAllWeights →
  _temp_create_all_weights depth var_list o = (Raise RecursionError, o).
Proof.
  intros Ho. induction depth as [|depth IH]; [done|].
  simpl. unfold bind at 1, getattr_create_all_weights_orig. rewrite Ho.
  unfold bind at 1. by rewrite IH.
Qed.

(** X1: attaching the hook a second time before the first allocation saves
    the wrapper as the routine to call first, so the allocation-triggering
    call recurses until Python's recursion limit: it raises [RecursionError]
    whatever the limit is, the class's allocation routine never runs, and the
    optimizer is left as it was. *)
Theorem X1_hook_attached_twice_recurses o w1 w2 depth var_list :
  call_create_all_weights depth var_list
    (_restore_optimizer_weights (_restore_optimizer_weights o w1) w2)
  = (Raise RecursionError,
     _restore_optimizer_weights (_restore_optimizer_weights o w1) w2).
Proof.
  destruct depth as [|depth]; [done|].
  unfold call_create_all_weights. simpl.
  by apply temp_create_all_weights_self_saved.
Qed.

(** X2: the wrapper needs the attributes [_restore_optimizer_weights] sets.
    On an optimizer that never had the hook attached it raises
    [AttributeError] before anything is allocated.  Once the hook has fired,
    running the wrapper again (through a reference kept from before) runs the
    class's routine and then raises [AttributeError], [_restored_weights]
    being gone. *)
Theorem X2_wrapper_runs_once o w depth var_list ws1 r ws2 d var_list' ws3 :
  lookup_create_all_weights o = ClassCreateAllWeights →
  create_all_weights_impl var_list (opt_weights o) = (Ok tt, ws1) →
  set_weights_impl w ws1 = (r, ws2) →
  r = Ok tt ∨ r = Raise ValueError →
  create_all_weights_impl var_list' ws2 = (Ok tt, ws3) →
  _create_all_weights_orig o = None →
  _temp_create_all_weights (S d) var_list o = (Raise AttributeError, o)
  ∧ ∃ o', call_create_all_weights (S (S depth)) var_list (_restore_optimizer_weights o w)
          = (Ok tt, o')
      ∧ _temp_create_all_weights (S d) var_list' o'
        = (Raise AttributeError, unhooked ws3).
Proof.
  intros Hcls Halloc Hset Hr Halloc' Hnone. split.
  - simpl. unfold bind at 1, getattr_create_all_weights_orig. by rewrite Hnone.
  - exists (unhooked ws2). split.
    + rewrite (hook_call_set_weights o w depth var_list ws1 r ws2 Hcls Halloc Hset).
      by destruct Hr as [-> | ->].
    + simpl. unfold bind at 1, getattr_create_all_weights_orig. simpl.
      unfold bind at 1, on_weights at 1. simpl. rewrite Halloc'.
      reflexivity.
Qed.

End HookEdges.

Lemma X2_wrapper_runs_once_witness :
  _temp_create_all_weights (H:=momentum_api) 1 [kernel] new_optimizer
  = (Raise AttributeError, new_optimizer)
  ∧ ∃ o', call_create_all_weights (H:=momentum_api) 2 [kernel]
            (_restore_optimizer_weights new_optimizer (Some trained_weights))
          = (Ok tt, o')
      ∧ _temp_create_all_weights (H:=momentum_api) 1 [kernel] o'
        = (Raise AttributeError, unhooked trained_weights).
Proof.
  apply (X2_wrapper_runs_once (H:=momentum_api) new_optimizer (Some trained_weights) 0
           [kernel] [ {| shape := []; values := [0%Z] |}; zeros_like kernel ]
           (Ok tt) trained_weights 0 [kernel] trained_weights);
    [reflexivity | reflexivity | reflexivity | left; reflexivity | reflexivity
    | reflexivity].
Defined.

(** ** The staging scope, both branches *)







(** ** What the staging scopes leave behind *)








(** X7: on the in-memory filesystem, when [load_model] rejects the extracted
    tree, [unpack_keras_model] raises the loader's exception and the staging
    scope removes only the entry of the root: every file of the archive can
    still be read at its path below the staging root, and every subdirectory
    is still there. *)
Theorem X7_failed_load_leaves_every_file {PF : Platform} {Core : Type}
    {API : KerasModelAPI Core} (u : string) (files : list (list string * list byte))
    (w : option (list ndarray)) (fs fs3 : filesystem) (e : exn) :
  os_name ≠ "nt" → valid_name u = true → valid_tree files = true → fresh_root u fs →
  unpack_extract ("ram://" +:+ u) (tar_of files) fs = (Ok tt, fs3) →
  load_model ("ram://" +:+ u) fs3 = (Raise e, fs3) →
  ∃ fs', unpack_keras_model u (tar_of files) w fs = (Raise e, fs')
    ∧ fs' !! ("ram://" +:+ u, []) = None
    ∧ (∀ cs d, (cs, d) ∈ files →
         gfile_read (join ("ram://" +:+ u) (sep_join cs)) fs' = (Ok d, fs'))
    ∧ (∀ cs, cs ≠ [] → is_dir_of files cs →
         fs' !! ("ram://" +:+ u, cs) = Some Directory).
Proof.
  intros Hos Hu Hfiles%valid_tree_ok Hfresh Hextract Hload.
  destruct (unpack_extract_staged u files fs Hu Hfiles Hfresh) as (fs3' & Hextract' & Hst).
  rewrite Hextract in Hextract'. injection Hextract' as <-.
  exists (delete ("ram://" +:+ u, []) fs3). split; [|split; [|split]].
  - unfold unpack_keras_model. apply get_temp_folder_ram_run; [done|done|].
    rewrite (bind_ok _ _ _ _ _ Hextract). by rewrite (bind_raise _ _ _ _ _ Hload).
  - apply lookup_delete_eq.
  - intros cs d Hin. destruct (tree_ok_path files (cs, d) Hfiles Hin) as [Hne Hcs].
    simpl in Hne, Hcs. rewrite join_root_sep_join by done.
    apply gfile_read_loc; [done|done|]. rewrite lookup_delete_ne by congruence.
    by apply (staged_files _ _ _ _ _ Hst).
  - intros cs Hne Hdir. rewrite lookup_delete_ne by congruence.
    apply (staged_dirs _ _ _ _ _ Hst). by left.
Qed.

Lemma run_eta2 {S A} (p : result A * S) (r : result A) (s : S) :
  p.1 = r → p.2 = s → p = (r, s).
Proof. destruct p. by intros <- <-. Qed.

(** The reference loader only reads. *)
Lemma blob_load_keeps_store (dir : string) (s : filesystem) :
  (@load_model _ blob_api dir s).2 = s.
Proof.
  simpl. unfold bind, gfile_read, lift_result.
  destruct (s !! parse_path (join dir "saved_model.pb")) as [[pb|]|]; [|done|done].
  by destruct (s !! parse_path (join (join dir "variables") "variables.data")) as [[data|]|].
Qed.

Lemma X7_failed_load_leaves_every_file_witness :
  ∃ fs', unpack_keras_model (PF := posix) (API := blob_api) "9c1d" (tar_of corrupt_tree)
           None ∅
         = (Raise (OtherError "OSError"), fs')
    ∧ fs' !! ("ram://" +:+ "9c1d", []) = None
    ∧ (∀ cs d, (cs, d) ∈ corrupt_tree →
         gfile_read (join ("ram://" +:+ "9c1d") (sep_join cs)) fs' = (Ok d, fs'))
    ∧ (∀ cs, cs ≠ [] → is_dir_of corrupt_tree cs →
         fs' !! ("ram://" +:+ "9c1d", cs) = Some Directory).
Proof.
  apply (X7_failed_load_leaves_every_file (PF := posix) (API := blob_api) "9c1d"
           corrupt_tree None ∅
           (unpack_extract ("ram://" +:+ "9c1d") (tar_of corrupt_tree) ∅).2
           (OtherError "OSError"));
    [discriminate | reflexivity | reflexivity | apply fresh_root_empty
    | apply run_eta; vm_compute; reflexivity
    | apply run_eta2; [vm_compute; reflexivity | apply blob_load_keeps_store]].
Defined.



(** ** Member names that leave the staging folder *)

(** An absolute path is a local one: its location has the root ["/"]. *)
Lemma split_scheme_abs (r scheme rest : string) :
  split_scheme (String "/" r) = Some (scheme, rest) → has_sep scheme = true.
Proof.
  simpl. destruct (split_scheme r) as [[s t]|]; [|done]. by intros [= <- _].
Qed.

Lemma parse_path_abs (name : string) :
  isabs name = true → (parse_path name).1 = "/".
Proof.
  intros Habs. unfold parse_path. rewrite Habs.
  destruct (split_scheme name) as [[scheme rest]|] eqn:Hs; [|done].
  apply startswith_iff in Habs as [r ->].
  apply split_scheme_abs in Hs. by rewrite Hs.
Qed.

Lemma gfile_write_inv (path : string) (data : list byte) (fs fs' : filesystem) :
  gfile_write path data fs = (Ok tt, fs') → fs' = <[parse_path path := File data]> fs.
Proof.
  unfold gfile_write. destruct (fs !! parse_path path) as [[d|]|]; by intros [= <-].
Qed.

(** X9: the extraction loop joins each member name to the staging folder
    with [os.path.join], which drops the folder when the name is absolute: a
    member with an absolute name is written at that local path, whatever the
    staging folder is. *)
Theorem X9_absolute_member_name_escapes (temp_dir name : string)
    (data : list byte) (fs fs' : filesystem) :
  isabs name = true →
  unpack_extract temp_dir [(name, data)] fs = (Ok tt, fs') →
  (parse_path name).1 = "/"
  ∧ fs' !! parse_path name = Some (File data)
  ∧ ∀ temp_dir', unpack_extract temp_dir' [(name, data)] fs = (Ok tt, fs').
Proof.
  intros Habs Hrun. split; [by apply parse_path_abs|].
  assert (∀ d, unpack_extract d [(name, data)] fs
               = bind (gfile_makedirs (dirname name))
                   (fun _ => bind (gfile_write name data) (fun _ => ret tt)) fs) as Hany.
  { intros d. unfold unpack_extract, getnames. simpl.
    unfold join. unfold isabs in Habs. rewrite Habs.
    unfold extractfile. simpl. rewrite String.eqb_refl.
    unfold bind, lift_result. destruct (gfile_makedirs (dirname name) fs) as [[[]|e] s]; [|done].
    by destruct (gfile_write name data s) as [[[]|e] s']. }
  split; [|intros d; by rewrite Hany, <- (Hany temp_dir)].
  rewrite Hany in Hrun. apply bind_inv_ok in Hrun as ([] & s & _ & Hrun).
  apply bind_inv_ok in Hrun as ([] & s' & Hw%gfile_write_inv & [= <-]).
  subst s'. apply lookup_insert_eq.
Qed.

Lemma X9_absolute_member_name_escapes_witness :
  (parse_path "/etc/cron.d/job").1 = "/"
  ∧ (unpack_extract "ram://9c1d" [("/etc/cron.d/job", [x2a])] ∅).2
    !! parse_path "/etc/cron.d/job" = Some (File [x2a])
  ∧ ∀ temp_dir', unpack_extract temp_dir' [("/etc/cron.d/job", [x2a])] ∅
                 = (Ok tt,
                    (unpack_extract "ram://9c1d"
                       [("/etc/cron.d/job", [x2a])] ∅).2).
Proof.
  apply (X9_absolute_member_name_escapes "ram://9c1d" "/etc/cron.d/job"
           [x2a] ∅);
    [reflexivity | apply run_eta; vm_compute; reflexivity].
Defined.

(** ** The archive does not depend on the platform record *)





(** ** Optimizer state through a pickle round trip *)




(** X12: [pack_keras_optimizer] reads the weights with [get_weights], which
    does not see the weights still pending on the hook.  An optimizer rebuilt
    from a pack and packed again before its first allocation is packed with
    the weights of the rebuilt object, not with those of the original: after
    the second round trip the first allocation finds pending weights of other
    shapes and the optimizer keeps the freshly allocated ones. *)
Theorem X12_repacking_before_allocation_drops_the_pending_weights
    {SO : KerasSerializable Optimizer} (alloc : list ndarray → M (list ndarray) unit)
    (o o1 o2 : Optimizer) (depth : nat) (var_list ws1 : list ndarray) :
  keras_deserialize (keras_serialize o) = Ok o1 →
  keras_deserialize
    (keras_serialize (_restore_optimizer_weights o1 (Some (get_weights o)))) = Ok o2 →
  lookup_create_all_weights o2 = ClassCreateAllWeights →
  alloc var_list (opt_weights o2) = (Ok tt, ws1) →
  shapes_match (get_weights o1) ws1 = false →
  ∃ p1 p2 o3,
    apply2 (pack_keras_optimizer o).1 (pack_keras_optimizer o).2 = Ok p1
    ∧ _restored_weights p1 = Some (Some (get_weights o))
    ∧ (pack_keras_optimizer p1).2.2 = Some (get_weights o1)
    ∧ apply2 (pack_keras_optimizer p1).1 (pack_keras_optimizer p1).2 = Ok p2
    ∧ call_create_all_weights (H := keras_optimizer_api alloc) (S (S depth)) var_list p2
      = (Ok tt, o3)
    ∧ get_weights o3 = ws1.
Proof.
  intros Hde1 Hde2 Hcls Halloc Hshape.
  exists (_restore_optimizer_weights o1 (Some (get_weights o))),
    (_restore_optimizer_weights o2 (Some (get_weights o1))), (unhooked ws1).
  split; [|split; [done|split; [done|split; [|split; [|done]]]]].
  - unfold apply2, pack_keras_optimizer, unpack_keras_optimizer. simpl. by rewrite Hde1.
  - unfold apply2, pack_keras_optimizer, unpack_keras_optimizer. simpl.
    unfold pack_keras_optimizer in Hde2. by rewrite Hde2.
  - rewrite (hook_call_set_weights (H := keras_optimizer_api alloc) o2
               (Some (get_weights o1)) depth var_list ws1 (Raise ValueError) ws1 Hcls Halloc);
      [done|].
    simpl. by rewrite Hshape.
Qed.

Lemma X12_repacking_before_allocation_drops_the_pending_weights_witness :
  ∃ p1 p2 o3,
    apply2 (pack_keras_optimizer (SO := sgd_serializable) trained_optimizer).1
      (pack_keras_optimizer (SO := sgd_serializable) trained_optimizer).2 = Ok p1
    ∧ _restored_weights p1 = Some (Some (get_weights trained_optimizer))
    ∧ (pack_keras_optimizer (SO := sgd_serializable) p1).2.2
      = Some (get_weights new_optimizer)
    ∧ apply2 (pack_keras_optimizer (SO := sgd_serializable) p1).1
        (pack_keras_optimizer (SO := sgd_serializable) p1).2 = Ok p2
    ∧ call_create_all_weights (H := keras_optimizer_api momentum_create_all_weights) 2
        [kernel] p2
      = (Ok tt, o3)
    ∧ get_weights o3 = [ {| shape := []; values := [0%Z] |}; zeros_like kernel ].
Proof.
  apply (X12_repacking_before_allocation_drops_the_pending_weights
           (SO := sgd_serializable) momentum_create_all_weights trained_optimizer
           new_optimizer new_optimizer 0 [kernel]
           [ {| shape := []; values := [0%Z] |}; zeros_like kernel ]);
    reflexivity.
Defined.

(** ** Optimizer state through the round trip of a model *)




(** ** Archives that hold a member twice *)








(** ** The order of the members *)

(** A store is determined by the tree it holds below the staging root. *)
Lemma staged_unique (u : string) (base : bool)
    (files files' : list (list string * list byte)) (fs0 fs fs' : filesystem) :
  files' ≡ₚ files → staged u base files fs0 fs → staged u base files' fs0 fs' → fs = fs'.
Proof.
  intros Hperm Hst Hst'.
  assert (∀ cs, is_dir_of files' cs ↔ is_dir_of files cs) as Hdir.
  { intros cs. unfold is_dir_of. by setoid_rewrite Hperm. }
  apply map_eq. intros [r cs]. destruct (decide (r = "ram://" +:+ u)) as [-> | Hr].
  - destruct (fs !! ("ram://" +:+ u, cs)) as [[d|]|] eqn:Hfs.
    + symmetry. apply (staged_files _ _ _ _ _ Hst'). rewrite Hperm.
      by apply (staged_files _ _ _ _ _ Hst).
    + symmetry. apply (staged_dirs _ _ _ _ _ Hst'). rewrite Hdir.
      by apply (staged_dirs _ _ _ _ _ Hst).
    + destruct (fs' !! ("ram://" +:+ u, cs)) as [[d|]|] eqn:Hfs'; [| |done].
      * apply (staged_files _ _ _ _ _ Hst') in Hfs'. rewrite Hperm in Hfs'.
        apply (staged_files _ _ _ _ _ Hst) in Hfs'. congruence.
      * apply (staged_dirs _ _ _ _ _ Hst') in Hfs'. rewrite Hdir in Hfs'.
        apply (staged_dirs _ _ _ _ _ Hst) in Hfs'. congruence.
  - rewrite (staged_frame _ _ _ _ _ Hst) by done.
    by rewrite (staged_frame _ _ _ _ _ Hst') by done.
Qed.

(** X15: what the extraction loop stages does not depend on the order of
    the members in the archive: the archives of one tree, with the members in
    any two orders, are extracted to the same store. *)
Theorem X15_extraction_ignores_the_member_order (u : string)
    (files files' : list (list string * list byte)) (fs : filesystem) :
  valid_name u = true → valid_tree files = true → files' ≡ₚ files → fresh_root u fs →
  ∃ fs', unpack_extract ("ram://" +:+ u) (tar_of files) fs = (Ok tt, fs')
    ∧ unpack_extract ("ram://" +:+ u) (tar_of files') fs = (Ok tt, fs').
Proof.
  intros Hu Hfiles%valid_tree_ok Hperm Hfresh.
  pose proof (tree_ok_perm _ _ (symmetry Hperm) Hfiles) as Hfiles'.
  destruct (unpack_extract_staged u files fs Hu Hfiles Hfresh) as (fs1 & Hrun & Hst).
  destruct (unpack_extract_staged u files' fs Hu Hfiles' Hfresh) as (fs2 & Hrun' & Hst').
  exists fs1. split; [done|].
  by rewrite (staged_unique u false files files' fs fs1 fs2 Hperm Hst Hst').
Qed.

Lemma X15_extraction_ignores_the_member_order_witness :
  ∃ fs', unpack_extract ("ram://" +:+ "9c1d") (tar_of saved_model_tree) ∅ = (Ok tt, fs')
    ∧ unpack_extract ("ram://" +:+ "9c1d") (tar_of (reverse saved_model_tree)) ∅
      = (Ok tt, fs').
Proof.
  apply (X15_extraction_ignores_the_member_order "9c1d" saved_model_tree
           (reverse saved_model_tree) ∅);
    [reflexivity | reflexivity | apply reverse_Permutation | apply fresh_root_empty].
Defined.

(** ** Attaching the hook again *)

(** X16: once the hook has fired the optimizer can take it again: the
    routine saved by a second [_restore_optimizer_weights] is the class's, so
    the next allocation-triggering call runs the class's routine, installs the
    newly pending weights (or drops them on [ValueError]) and removes the hook
    again. *)
Theorem X16_hook_can_be_attached_again_after_it_fired `{OptimizerAPI}
    (o : Optimizer) (w w' : option (list ndarray)) (depth depth' : nat)
    (var_list var_list' ws1 ws2 ws3 ws4 : list ndarray) (r r' : result unit) :
  lookup_create_all_weights o = ClassCreateAllWeights →
  create_all_weights_impl var_list (opt_weights o) = (Ok tt, ws1) →
  set_weights_impl w ws1 = (r, ws2) →
  r = Ok tt ∨ r = Raise ValueError →
  create_all_weights_impl var_list' ws2 = (Ok tt, ws3) →
  set_weights_impl w' ws3 = (r', ws4) →
  r' = Ok tt ∨ r' = Raise ValueError →
  ∃ o1 o2,
    call_create_all_weights (S (S depth)) var_list (_restore_optimizer_weights o w)
    = (Ok tt, o1)
    ∧ call_create_all_weights (S (S depth')) var_list' (_restore_optimizer_weights o1 w')
      = (Ok tt, o2)
    ∧ opt_weights o2 = ws4
    ∧ _restored_weights o2 = None
    ∧ hook_attached o2 = false.
Proof.
  intros Hcls Halloc Hset Hr Halloc' Hset' Hr'.
  exists (unhooked ws2), (unhooked ws4). split; [|split; [|done]].
  - rewrite (hook_call_set_weights o w depth var_list ws1 r ws2 Hcls Halloc Hset).
    by destruct Hr as [-> | ->].
  - rewrite (hook_call_set_weights (unhooked ws2) w' depth' var_list' ws3 r' ws4);
      [by destruct Hr' as [-> | ->] | done | done | done].
Qed.

Lemma X16_hook_can_be_attached_again_after_it_fired_witness :
  ∃ o1 o2,
    call_create_all_weights (H := momentum_api) 2 [kernel]
      (_restore_optimizer_weights new_optimizer (Some trained_weights))
    = (Ok tt, o1)
    ∧ call_create_all_weights (H := momentum_api) 2 [kernel]
        (_restore_optimizer_weights o1 (Some []))
      = (Ok tt, o2)
    ∧ opt_weights o2 = trained_weights
    ∧ _restored_weights o2 = None
    ∧ hook_attached o2 = false.
Proof.
  apply (X16_hook_can_be_attached_again_after_it_fired (H := momentum_api) new_optimizer
           (Some trained_weights) (Some []) 0 0 [kernel] [kernel]
           [ {| shape := []; values := [0%Z] |}; zeros_like kernel ]
           trained_weights trained_weights trained_weights (Ok tt) (Raise ValueError));
    [reflexivity | reflexivity | reflexivity | left; reflexivity | reflexivity
    | reflexivity | right; reflexivity].
Defined.
